(** * aries-framework-go: connection persistence and the introduce protocol states

    A shallow embedding of two Go packages:

    - [Didexchange]: [connectionStore.saveConnectionRecord] and
      [connectionStore.saveConnectionRecordWithMapping]
      (pkg/didcomm/protocol/didexchange/persistence.go);
    - [Introduce]: the ten states of the introduce protocol with their
      [Name], [CanTransitionTo], [ExecuteInbound] and [ExecuteOutbound]
      methods, and the helpers [toDestIDx], [getApproveFromMsg],
      [sendProblemReport], [deliveringSkipInvitation] and [fillRecipient].

    Collaborators that live in other packages (the connection recorder, the
    DID store, the messenger) are modelled by the calls the code makes to
    them: every call is appended to a trace together with the [error] the
    collaborator answered, and the collaborator itself is an arbitrary
    function from the calls made so far and the present call to that answer. *)

From Stdlib Require Import ZArith String List Bool Lia.
From stdpp Require Import base list strings sets.

Local Open Scope string_scope.
Local Open Scope list_scope.

(** ** Go values shared by both packages *)

Module Go.

(** The Go [error] interface: [None] is [nil], [Some msg] an error whose
    [Error()] text is [msg]. *)
Definition error := option string.

(** [errors.New(text)]. *)
Definition errors_New (text : string) : error := Some text.

(** [fmt.Errorf(prefix + "%w", err)] for a non-nil [err]. *)
Definition Errorf (prefix : string) (err : string) : error :=
  Some (prefix +:+ err).

(** A call to a collaborator together with the error it answered. *)
Definition Trace (Call : Type) := list (Call * error).

(** A collaborator: given the calls made so far and the present call, the
    error it answers. *)
Definition Oracle (Call : Type) := list Call -> Call -> error.


End Go.

Import Go.

(** ** Package didexchange: persistence.go *)

Module Didexchange.

(** Modelled from the spec: the state name constant [stateNameCompleted],
    declared in the package's states file, is ["completed"] (sections 4.4
    and 8 of the specification). *)
Definition stateNameCompleted : string := "completed".

Definition myNSPrefix : string := "my".
Definition theirNSPrefix : string := "their".

(** [connection.Record], with the fields the package reads.  A
    [*connection.Record] argument is taken to be non-nil. *)
Record connection_Record := {
  ConnectionID : string;
  State : string;
  ThreadID : string;
  TheirDID : string;
  MyDID : string;
  RecipientKeys : list string;
  Namespace : string
}.

(** The methods of the two embedded stores that [connectionStore] calls:
    [connection.Recorder.SaveConnectionRecord],
    [connection.Recorder.SaveConnectionRecordWithMappings] and
    [did.Store.SaveDIDByResolving(did, keys...)]. *)
Inductive StoreCall :=
| SaveConnectionRecord (record : connection_Record)
| SaveConnectionRecordWithMappings (record : connection_Record)
| SaveDIDByResolving (did : string) (keys : list string).

(** [connectionStore]: the recorder and the DID store behind it. *)
Definition connectionStore := Oracle StoreCall.

(** One method call on the store: the answer, and the extended trace. *)
Definition invoke (c : connectionStore) (call : StoreCall)
    (t : Trace StoreCall) : error * Trace StoreCall :=
  let r := c t.*1 call in (r, t ++ [(call, r)]).

Definition saveConnectionRecord (c : connectionStore)
    (record : connection_Record) (t : Trace StoreCall)
    : error * Trace StoreCall :=
  let '(err, t) := invoke c (SaveConnectionRecord record) t in
  match err with
  | Some e => (Errorf " failed to save connection record : " e, t)
  | None =>
    if String.eqb (State record) stateNameCompleted then
      let '(err, t) :=
        invoke c (SaveDIDByResolving (TheirDID record) (RecipientKeys record)) t in
      match err with
      | Some e => (Errorf " failed to save DID by resolving : " e, t)
      | None => (None, t)
      end
    else (None, t)
  end.

Definition saveConnectionRecordWithMapping (c : connectionStore)
    (record : connection_Record) (t : Trace StoreCall)
    : error * Trace StoreCall :=
  let '(err, t) := invoke c (SaveConnectionRecordWithMappings record) t in
  match err with
  | Some e => (Some e, t)
  | None =>
    if negb (String.eqb (MyDID record) "") then
      let '(err, t) := invoke c (SaveDIDByResolving (MyDID record) []) t in
      match err with
      | Some e => (Some e, t)
      | None => (None, t)
      end
    else (None, t)
  end.

(** The DID resolutions among a list of calls, as (did, keys) pairs. *)
Fixpoint resolutions (calls : list StoreCall) : list (string * list string) :=
  match calls with
  | [] => []
  | SaveDIDByResolving did keys :: rest => (did, keys) :: resolutions rest
  | _ :: rest => resolutions rest
  end.

End Didexchange.

(** ** Package introduce: states.go *)

Module Introduce.

(** *** Messages and protocol context *)

(** [service.Destination] and [didexchange.Invitation] are only passed
    through by the states; a few of their fields are kept. *)
Record service_Destination := {
  Dest_RecipientKeys : list string;
  Dest_ServiceEndpoint : string;
  Dest_RoutingKeys : list string
}.

Record didexchange_Invitation := {
  Inv_ID : string;
  Inv_Label : string
}.

(** [decorator.Thread]. *)
Record decorator_Thread := { Thread_ID : string }.

Record Proposal := {
  Proposal_Type : string;
  Proposal_To : option service_Destination;
  Proposal_Thread : option decorator_Thread
}.

Record Response := {
  Response_Type : string;
  Response_Invitation : option didexchange_Invitation;
  Approve : bool
}.

(** [model.ProblemReport] and [model.Ack]. *)
Record model_ProblemReport := { ProblemReport_Type : string }.

Record model_Ack := {
  Ack_Type : string;
  Ack_Thread : option decorator_Thread
}.

(** [service.DIDCommMsgMap]: the map [service.NewDIDCommMsgMap] builds from
    a payload struct (a [nil] invitation pointer is [None]). *)
Inductive service_DIDCommMsgMap :=
| MapOfProposal (v : Proposal)
| MapOfResponse (v : Response)
| MapOfProblemReport (v : model_ProblemReport)
| MapOfAck (v : model_Ack)
| MapOfInvitation (v : option didexchange_Invitation).

(** The interface [service.DIDCommMsg], by what its methods answer:
    [Type()], [ID()], [Decode(&Response{})] ([None] when it returns an
    error), and the dynamic value when it is a [service.DIDCommMsgMap]
    ([None] when the type assertion [msg.(service.DIDCommMsgMap)] fails). *)
Record service_DIDCommMsg := {
  Msg_Type : string;
  Msg_ID : string;
  Msg_Decode : option Response;
  Msg_AsMap : option service_DIDCommMsgMap
}.

(** [Recipient]; a [*Recipient] is an address in the heap of recipients, or
    [nil]. *)
Record Recipient := {
  To : option service_Destination;
  MyDID : string;
  TheirDID : string
}.

Definition ptr := option nat.

(** The interface [Dependency], by what [Invitation()] answers. *)
Record Dependency := { Dependency_Invitation : option didexchange_Invitation }.

(** [metaData], with the fields the states read; a [*metaData] argument and
    the interface value in its [Msg] field are taken to be non-nil.
    [Recipients] is a [[]*Recipient]. *)
Record metaData := {
  Msg : service_DIDCommMsg;
  ThreadID : string;
  WaitCount : Z;
  IntroduceeIndex : Z;
  Recipients : list ptr;
  Invitation : option didexchange_Invitation;
  dependency : option Dependency;
  disapprove : bool;
  myDID : string;
  theirDID : string
}.

(** Declarations of the package that the states use and that live in its
    other files: the message type URIs, the initial wait count and the
    skip-proposal test. *)
Class Package := {
  ProposalMsgType : string;
  RequestMsgType : string;
  ResponseMsgType : string;
  AckMsgType : string;
  ProblemReportMsgType : string;
  initialWaitCount : Z;
  isSkipProposal : metaData -> bool
}.

(** *** The messenger, and executions *)

(** The three methods of [service.Messenger]. *)
Inductive MessengerCall :=
| Send (msg : service_DIDCommMsgMap) (myDID theirDID : string)
| ReplyTo (msgID : string) (msg : service_DIDCommMsgMap)
| ReplyToNested (thID : string) (msg : service_DIDCommMsgMap)
    (myDID theirDID : string).

Definition service_Messenger := Oracle MessengerCall.

(** What an execution can change: the recipients that pointers refer to,
    and the messenger calls made so far. *)
Record World := {
  heap : list Recipient;
  calls : Trace MessengerCall
}.

(** A Go call either returns or panics. *)
Inductive Outcome (A : Type) :=
| Returned (a : A)
| Panicked.
Arguments Returned {A} a.
Arguments Panicked {A}.

Definition Exec (A : Type) := World -> Outcome A * World.

Definition ret {A} (a : A) : Exec A := fun w => (Returned a, w).

Definition bind {A B} (e : Exec A) (k : A -> Exec B) : Exec B :=
  fun w =>
    match e w with
    | (Returned a, w') => k a w'
    | (Panicked, w') => (Panicked, w')
    end.

Definition panic {A} : Exec A := fun w => (Panicked, w).

Notation "'let*' x ':=' e 'in' k" := (bind e (fun x => k))
  (at level 10, x pattern, e at level 100, k at level 200).

(** A method call on the messenger. *)
Definition call (messenger : service_Messenger) (c : MessengerCall) : Exec error :=
  fun w =>
    let r := messenger (calls w).*1 c in
    (Returned r, {| heap := heap w; calls := calls w ++ [(c, r)] |}).

(** [*p]: a nil pointer panics (an address outside the heap does not occur
    in Go and is treated alike). *)
Definition deref (p : ptr) : Exec Recipient :=
  fun w =>
    match p with
    | Some a => match heap w !! a with
                | Some r => (Returned r, w)
                | None => (Panicked, w)
                end
    | None => (Panicked, w)
    end.

(** [*p = r]. *)
Definition assign (p : ptr) (r : Recipient) : Exec unit :=
  fun w =>
    match p with
    | Some a => match heap w !! a with
                | Some _ => (Returned tt, {| heap := <[a := r]> (heap w); calls := calls w |})
                | None => (Panicked, w)
                end
    | None => (Panicked, w)
    end.

(** [&Recipient{...}]: a fresh address. *)
Definition new (r : Recipient) : Exec ptr :=
  fun w =>
    (Returned (Some (length (heap w))),
     {| heap := heap w ++ [r]; calls := calls w |}).

(** [s[i]] for a Go [int] index: out of range panics. *)
Definition index {A} (s : list A) (i : Z) : Exec A :=
  fun w =>
    if (i <? 0)%Z then (Panicked, w)
    else match s !! Z.to_nat i with
         | Some x => (Returned x, w)
         | None => (Panicked, w)
         end.

(** [s[:n]]; the capacity of a slice is taken to be its length. *)
Definition slice_to {A} (s : list A) (n : nat) : Exec (list A) :=
  fun w =>
    if (n <=? length s)%nat then (Returned (take n s), w) else (Panicked, w).

(** [x.(service.DIDCommMsgMap)]. *)
Definition assert_DIDCommMsgMap (msg : service_DIDCommMsg) : Exec service_DIDCommMsgMap :=
  fun w =>
    match Msg_AsMap msg with
    | Some v => (Returned v, w)
    | None => (Panicked, w)
    end.

(** *** States *)

Definition stateNameNoop : string := "noop".
Definition stateNameStart : string := "start".
Definition stateNameAbandoning : string := "abandoning".
Definition stateNameDone : string := "done".
Definition stateNameArranging : string := "arranging".
Definition stateNameDelivering : string := "delivering".
Definition stateNameConfirming : string := "confirming".
Definition stateNameRequesting : string := "requesting".
Definition stateNameDeciding : string := "deciding".
Definition stateNameWaiting : string := "waiting".

(** The ten implementations of the interface [state]. *)
Inductive state :=
| noOp | start | done | arranging | delivering
| confirming | abandoning | deciding | waiting | requesting.

#[export] Instance state_eq_dec : EqDecision state.
Proof. solve_decision. Defined.

Definition Name (s : state) : string :=
  match s with
  | noOp => stateNameNoop
  | start => stateNameStart
  | done => stateNameDone
  | arranging => stateNameArranging
  | delivering => stateNameDelivering
  | confirming => stateNameConfirming
  | abandoning => stateNameAbandoning
  | deciding => stateNameDeciding
  | waiting => stateNameWaiting
  | requesting => stateNameRequesting
  end.

Definition CanTransitionTo (s next : state) : bool :=
  match s with
  | noOp => false
  | start =>
      String.eqb (Name next) stateNameArranging
      || String.eqb (Name next) stateNameDeciding
      || String.eqb (Name next) stateNameRequesting
      || String.eqb (Name next) stateNameAbandoning
  | done => false
  | arranging =>
      String.eqb (Name next) stateNameArranging
      || String.eqb (Name next) stateNameDone
      || String.eqb (Name next) stateNameAbandoning
      || String.eqb (Name next) stateNameDelivering
  | delivering =>
      String.eqb (Name next) stateNameConfirming
      || String.eqb (Name next) stateNameDone
      || String.eqb (Name next) stateNameAbandoning
  | confirming =>
      String.eqb (Name next) stateNameDone
      || String.eqb (Name next) stateNameAbandoning
  | abandoning => String.eqb (Name next) stateNameDone
  | deciding =>
      String.eqb (Name next) stateNameWaiting
      || String.eqb (Name next) stateNameDone
      || String.eqb (Name next) stateNameAbandoning
  | waiting =>
      String.eqb (Name next) stateNameDone
      || String.eqb (Name next) stateNameAbandoning
  | requesting =>
      String.eqb (Name next) stateNameDeciding
      || String.eqb (Name next) stateNameAbandoning
      || String.eqb (Name next) stateNameDone
  end.

(** The result of [ExecuteInbound] and [ExecuteOutbound]: a followup state
    ([None] is a nil [state]) and an error. *)
Definition Followup : Type := option state * error.

Section States.
Context `{Package}.

(** toDestIDx returns destination index based on introducee index *)
Definition toDestIDx (idx : Z) : Z :=
  if (idx =? 0)%Z then 1%Z else 0%Z.

Definition getApproveFromMsg (msg : service_DIDCommMsg) : bool * bool :=
  if negb (String.eqb (Msg_Type msg) ResponseMsgType) then (false, false)
  else
    match Msg_Decode msg with
    | None => (false, false)
    | Some r => (Approve r, true)
    end.

Fixpoint sendProblemReport (messenger : service_Messenger) (m : metaData)
    (recipients : list ptr) : Exec Followup :=
  match recipients with
  | [] => ret (Some done, None)
  | recipient :: rest =>
      let problem := MapOfProblemReport {| ProblemReport_Type := ProblemReportMsgType |} in
      let* r := deref recipient in
      let* err := call messenger (ReplyToNested (ThreadID m) problem (MyDID r) (TheirDID r)) in
      match err with
      | Some e => ret (None, Errorf "send problem-report: " e)
      | None => sendProblemReport messenger m rest
      end
  end.

Definition deliveringSkipInvitation (messenger : service_Messenger) (m : metaData)
    (recipients : list ptr) : Exec Followup :=
  let* d := match dependency m with Some d => ret d | None => panic end in
  let* p0 := index recipients 0 in
  let* r := deref p0 in
  let* err := call messenger
    (ReplyToNested (ThreadID m) (MapOfInvitation (Dependency_Invitation d))
       (MyDID r) (TheirDID r)) in
  match err with
  | Some e => ret (None, Errorf "send inbound invitation (skip): " e)
  | None => ret (Some done, None)
  end.

Definition fillRecipient (recipients : list ptr) (m : metaData) : Exec (list ptr) :=
  if (length recipients =? 0)%nat then
    let* p := new {| To := None; MyDID := myDID m; TheirDID := theirDID m |} in
    ret (recipients ++ [p])
  else
    let* p0 := index recipients 0 in
    let* r := deref p0 in
    let* _ :=
      if String.eqb (MyDID r) "" then
        assign p0 {| To := To r; MyDID := myDID m; TheirDID := TheirDID r |}
      else ret tt in
    let* r := deref p0 in
    let* _ :=
      if String.eqb (TheirDID r) "" then
        assign p0 {| To := To r; MyDID := MyDID r; TheirDID := theirDID m |}
      else ret tt in
    ret recipients.

(** **** noOp *)

Definition noOp_ExecuteInbound (_ : service_Messenger) (_ : metaData) : Exec Followup :=
  ret (None, errors_New "cannot execute no-op").

Definition noOp_ExecuteOutbound (_ : service_Messenger) (_ : metaData) : Exec Followup :=
  ret (None, errors_New "cannot execute no-op").

(** **** start *)

Definition start_ExecuteInbound (_ : service_Messenger) (_ : metaData) : Exec Followup :=
  ret (None, errors_New "start: ExecuteInbound function is not supposed to be used").

Definition start_ExecuteOutbound (_ : service_Messenger) (_ : metaData) : Exec Followup :=
  ret (None, errors_New "start: ExecuteOutbound function is not supposed to be used").

(** **** done *)

Definition done_ExecuteInbound (_ : service_Messenger) (_ : metaData) : Exec Followup :=
  ret (Some noOp, None).

Definition done_ExecuteOutbound (_ : service_Messenger) (_ : metaData) : Exec Followup :=
  ret (None, errors_New "done: ExecuteOutbound function is not supposed to be used").

(** **** arranging *)

Definition arranging_ExecuteInbound (messenger : service_Messenger) (m : metaData)
    : Exec Followup :=
  if String.eqb (Msg_Type (Msg m)) ResponseMsgType && isSkipProposal m then
    ret (Some delivering, None)
  else
    let '(approve, ok) := getApproveFromMsg (Msg m) in
    if ok && negb approve then ret (Some abandoning, None)
    else
      let* recipient :=
        if (WaitCount m =? initialWaitCount)%Z then index (Recipients m) 0
        else index (Recipients m) 1 in
      let* r := deref recipient in
      let* err := call messenger
        (Send (MapOfProposal {| Proposal_Type := ProposalMsgType;
                                Proposal_To := To r;
                                Proposal_Thread := Some {| Thread_ID := ThreadID m |} |})
              (MyDID r) (TheirDID r)) in
      ret (Some noOp, err).

Definition arranging_ExecuteOutbound (messenger : service_Messenger) (m : metaData)
    : Exec Followup :=
  let* msg := assert_DIDCommMsgMap (Msg m) in
  let* err := call messenger (Send msg (myDID m) (theirDID m)) in
  match err with
  | Some e => ret (None, Errorf "arranging: Send: " e)
  | None => ret (Some noOp, None)
  end.

(** **** delivering *)

Definition delivering_ExecuteInbound (messenger : service_Messenger) (m : metaData)
    : Exec Followup :=
  let '(approve, ok) := getApproveFromMsg (Msg m) in
  if ok && negb approve then ret (Some abandoning, None)
  else if isSkipProposal m then deliveringSkipInvitation messenger m (Recipients m)
  else
    match Invitation m with
    | None => ret (Some abandoning, None)
    | Some inv =>
        let* recipient := index (Recipients m) (toDestIDx (IntroduceeIndex m)) in
        let msgMap := MapOfInvitation (Some inv) in
        let* r := deref recipient in
        let* err := call messenger
          (ReplyToNested (ThreadID m) msgMap (MyDID r) (TheirDID r)) in
        match err with
        | Some e => ret (None, Errorf "send inbound invitation: " e)
        | None => ret (Some confirming, None)
        end
    end.

Definition delivering_ExecuteOutbound (_ : service_Messenger) (_ : metaData) : Exec Followup :=
  ret (None, errors_New "delivering: ExecuteOutbound function is not supposed to be used").

(** **** confirming *)

Definition confirming_ExecuteInbound (messenger : service_Messenger) (m : metaData)
    : Exec Followup :=
  let* recipient := index (Recipients m) (IntroduceeIndex m) in
  let msgMap := MapOfAck {| Ack_Type := AckMsgType;
                            Ack_Thread := Some {| Thread_ID := ThreadID m |} |} in
  let* r := deref recipient in
  let* err := call messenger (Send msgMap (MyDID r) (TheirDID r)) in
  match err with
  | Some e => ret (None, Errorf "send ack: " e)
  | None => ret (Some done, None)
  end.

Definition confirming_ExecuteOutbound (_ : service_Messenger) (_ : metaData) : Exec Followup :=
  ret (None, errors_New "confirming: ExecuteOutbound function is not supposed to be used").

(** **** abandoning *)

Definition abandoning_ExecuteInbound (messenger : service_Messenger) (m : metaData)
    : Exec Followup :=
  let recipients : list ptr := [] in
  let* recipients :=
    if String.eqb (Msg_Type (Msg m)) RequestMsgType then fillRecipient [] m
    else ret recipients in
  let* recipients :=
    if String.eqb (Msg_Type (Msg m)) ResponseMsgType then fillRecipient (Recipients m) m
    else ret recipients in
  let '(approve, ok) := getApproveFromMsg (Msg m) in
  if ok && negb approve then
    if (WaitCount m =? 1)%Z then ret (Some done, None)
    else
      let* recipients := slice_to recipients 1 in
      sendProblemReport messenger m recipients
  else sendProblemReport messenger m recipients.

Definition abandoning_ExecuteOutbound (_ : service_Messenger) (_ : metaData) : Exec Followup :=
  ret (None, errors_New "abandoning: ExecuteOutbound function is not supposed to be used").

(** **** deciding *)

Definition deciding_ExecuteInbound (messenger : service_Messenger) (m : metaData)
    : Exec Followup :=
  let inv :=
    match dependency m with
    | Some d => Dependency_Invitation d
    | None => None
    end in
  let st := if disapprove m then abandoning else waiting in
  let msgMap := MapOfResponse {| Response_Type := ResponseMsgType;
                                 Response_Invitation := inv;
                                 Approve := negb (disapprove m) |} in
  let* err := call messenger (ReplyTo (Msg_ID (Msg m)) msgMap) in
  ret (Some st, err).

Definition deciding_ExecuteOutbound (_ : service_Messenger) (_ : metaData) : Exec Followup :=
  ret (None, errors_New "deciding: ExecuteOutbound function is not supposed to be used").

(** **** waiting *)

Definition waiting_ExecuteInbound (_ : service_Messenger) (_ : metaData) : Exec Followup :=
  ret (Some noOp, None).

Definition waiting_ExecuteOutbound (_ : service_Messenger) (_ : metaData) : Exec Followup :=
  ret (None, errors_New "waiting: ExecuteOutbound function is not supposed to be used").

(** **** requesting *)

Definition requesting_ExecuteInbound (_ : service_Messenger) (_ : metaData) : Exec Followup :=
  ret (None, errors_New "requesting: ExecuteInbound function is not supposed to be used").

Definition requesting_ExecuteOutbound (messenger : service_Messenger) (m : metaData)
    : Exec Followup :=
  let* msg := assert_DIDCommMsgMap (Msg m) in
  let* err := call messenger (Send msg (myDID m) (theirDID m)) in
  ret (Some noOp, err).

(** **** Dispatch on the dynamic type of a [state] *)

Definition ExecuteInbound (s : state) : service_Messenger -> metaData -> Exec Followup :=
  match s with
  | noOp => noOp_ExecuteInbound
  | start => start_ExecuteInbound
  | done => done_ExecuteInbound
  | arranging => arranging_ExecuteInbound
  | delivering => delivering_ExecuteInbound
  | confirming => confirming_ExecuteInbound
  | abandoning => abandoning_ExecuteInbound
  | deciding => deciding_ExecuteInbound
  | waiting => waiting_ExecuteInbound
  | requesting => requesting_ExecuteInbound
  end.

Definition ExecuteOutbound (s : state) : service_Messenger -> metaData -> Exec Followup :=
  match s with
  | noOp => noOp_ExecuteOutbound
  | start => start_ExecuteOutbound
  | done => done_ExecuteOutbound
  | arranging => arranging_ExecuteOutbound
  | delivering => delivering_ExecuteOutbound
  | confirming => confirming_ExecuteOutbound
  | abandoning => abandoning_ExecuteOutbound
  | deciding => deciding_ExecuteOutbound
  | waiting => waiting_ExecuteOutbound
  | requesting => requesting_ExecuteOutbound
  end.

(** Either of the two, by the kind of trigger. *)
Definition Execute (inbound : bool) (s : state)
    : service_Messenger -> metaData -> Exec Followup :=
  if inbound then ExecuteInbound s else ExecuteOutbound s.

End States.

(** *** The transition table of the specification

    The table of section 4.2, row by row as it is written there; it is
    compared with [CanTransitionTo] below. *)
Definition spec_legal_next (s : state) : list state :=
  match s with
  | start => [arranging; deciding; requesting; abandoning]
  | arranging => [arranging; delivering; abandoning; done]
  | delivering => [confirming; done; abandoning]
  | confirming => [done; abandoning]
  | abandoning => [done]
  | deciding => [waiting; done; abandoning]
  | waiting => [done; abandoning]
  | requesting => [deciding; abandoning; done]
  | done => []
  | noOp => []
  end.

(** *** Vocabulary for the properties of executions *)

(** An execution fully succeeds when it returns a followup and no error;
    otherwise it fails: it returns an error, or it panics. *)
Definition fully_succeeds (o : Outcome Followup) : Prop :=
  match o with
  | Returned (Some _, None) => True
  | _ => False
  end.

Definition failed (o : Outcome Followup) : Prop :=
  match o with
  | Returned (_, None) => False
  | _ => True
  end.



(** A problem-report of thread [thID]. *)
Definition is_problem_report `{Package} (thID : string) (c : MessengerCall) : Prop :=
  exists my their,
    c = ReplyToNested thID
          (MapOfProblemReport {| ProblemReport_Type := ProblemReportMsgType |})
          my their.






End Introduce.

(** ** Concrete inputs

    A package instance, recipients, messages and messengers on which the
    functions above are evaluated. *)

Module Fixtures.
Import Introduce.

Definition introduceSpec : string := "https://didcomm.org/introduce/1.0/".

#[export] Instance pkg : Package := {|
  ProposalMsgType := introduceSpec +:+ "proposal";
  RequestMsgType := introduceSpec +:+ "request";
  ResponseMsgType := introduceSpec +:+ "response";
  AckMsgType := introduceSpec +:+ "ack";
  ProblemReportMsgType := introduceSpec +:+ "problem-report";
  initialWaitCount := 2;
  isSkipProposal := fun m =>
    match dependency m with
    | Some d => bool_decide (is_Some (Dependency_Invitation d))
    | None => false
    end
|}.

Definition alice : Recipient :=
  {| To := None; MyDID := "did:peer:introducer-a"; TheirDID := "did:peer:alice" |}.

Definition bob : Recipient :=
  {| To := None; MyDID := "did:peer:introducer-b"; TheirDID := "did:peer:bob" |}.

(** A recipient whose DIDs are not known yet. *)
Definition unknown : Recipient :=
  {| To := None; MyDID := ""; TheirDID := "" |}.

(** An inbound Response with the given [approve] field. *)
Definition response (approve : bool) : service_DIDCommMsg :=
  let r := {| Response_Type := ResponseMsgType;
              Response_Invitation := None;
              Approve := approve |} in
  {| Msg_Type := ResponseMsgType;
     Msg_ID := "response-1";
     Msg_Decode := Some r;
     Msg_AsMap := Some (MapOfResponse r) |}.

(** An inbound message of type Response whose payload does not decode. *)
Definition malformed_response : service_DIDCommMsg :=
  {| Msg_Type := ResponseMsgType;
     Msg_ID := "response-2";
     Msg_Decode := None;
     Msg_AsMap := None |}.

(** The context of a thread with two recipients, at addresses 0 and 1. *)
Definition context (msg : service_DIDCommMsg) (waitCount : Z) : metaData :=
  {| Msg := msg;
     ThreadID := "thread-1";
     WaitCount := waitCount;
     IntroduceeIndex := 0;
     Recipients := [Some 0; Some 1];
     Invitation := None;
     dependency := None;
     disapprove := false;
     myDID := "did:peer:introducer";
     theirDID := "did:peer:carol" |}.

Definition two_recipients : World :=
  {| heap := [alice; bob]; calls := [] |}.

(** The same, before the DIDs of the first recipient are known. *)
Definition first_unknown : World :=
  {| heap := [unknown; bob]; calls := [] |}.

(** A context in which the skip-proposal test of [pkg] holds: an
    invitation has been injected through the dependency. *)
Definition skip_context : metaData :=
  {| Msg := response true;
     ThreadID := "thread-1";
     WaitCount := 2;
     IntroduceeIndex := 0;
     Recipients := [Some 0];
     Invitation := None;
     dependency := Some {| Dependency_Invitation :=
                             Some {| Inv_ID := "invitation-1"; Inv_Label := "bob" |} |};
     disapprove := false;
     myDID := "did:peer:introducer";
     theirDID := "did:peer:carol" |}.

(** The context of [context], holding an invitation shared by the first
    introducee. *)
Definition invited_context : metaData :=
  {| Msg := response true;
     ThreadID := "thread-1";
     WaitCount := 1;
     IntroduceeIndex := 0;
     Recipients := [Some 0; Some 1];
     Invitation := Some {| Inv_ID := "invitation-2"; Inv_Label := "alice" |};
     dependency := None;
     disapprove := false;
     myDID := "did:peer:introducer";
     theirDID := "did:peer:carol" |}.

(** An inbound Request, and an inbound Ack. *)
Definition request : service_DIDCommMsg :=
  {| Msg_Type := RequestMsgType;
     Msg_ID := "request-1";
     Msg_Decode := None;
     Msg_AsMap := None |}.

Definition ack : service_DIDCommMsg :=
  {| Msg_Type := AckMsgType;
     Msg_ID := "ack-1";
     Msg_Decode := None;
     Msg_AsMap := None |}.

(** The problem-report of thread-1 from [my] to [their]. *)
Definition problem_report (my their : string) : MessengerCall :=
  ReplyToNested "thread-1"
    (MapOfProblemReport {| ProblemReport_Type := ProblemReportMsgType |})
    my their.

(** A messenger that accepts every message. *)
Definition reliable : service_Messenger := fun _ _ => None.

(** A messenger that accepts its first message and fails afterwards. *)
Definition fails_after_one : service_Messenger :=
  fun history _ =>
    match history with
    | [] => None
    | _ :: _ => Some "connection closed"
    end.

End Fixtures.

Module StoreFixtures.
Import Didexchange.

(** A store that accepts every call. *)
Definition accepting : connectionStore := fun _ _ => None.

(** A store whose record save fails. *)
Definition record_save_fails : connectionStore :=
  fun _ call =>
    match call with
    | SaveConnectionRecord _ => Some "store closed"
    | _ => None
    end.

Definition completed_record : connection_Record :=
  {| ConnectionID := "conn-1";
     State := "completed";
     ThreadID := "thread-1";
     TheirDID := "did:peer:bob";
     MyDID := "did:peer:alice";
     RecipientKeys := ["key-1"];
     Namespace := "my" |}.

End StoreFixtures.

(** * Properties of package didexchange *)

Section DidexchangePersistence.
Import Didexchange.

Ltac elem_cases :=
  repeat match goal with
  | H : _ ∈ [] |- _ => apply elem_of_nil in H; destruct H
  | H : _ ∈ _ :: _ |- _ => apply elem_of_cons in H; destruct H as [H|H]
  | H : (_, _) = (_, _) |- _ => injection H as ? ?
  end.

Lemma invoke_eq (c : connectionStore) (call : StoreCall) (t : Trace StoreCall) :
  invoke c call t = (c t.*1 call, t ++ [(call, c t.*1 call)]).
Proof. reflexivity. Qed.

Lemma eqb_completed (record : connection_Record) :
  String.eqb (State record) stateNameCompleted = true <-> State record = "completed".
Proof. apply String.eqb_eq. Qed.

(** C5.  [saveConnectionRecord] first calls [SaveConnectionRecord] on the
    record, whatever the record and the store.  When that call succeeds it
    resolves and saves the peer DID ([TheirDID] with the record's
    [RecipientKeys]) if and only if the record's state is ["completed"],
    and it makes no other call; when the save fails nothing further is
    called.  An error of the save or of the resolution comes back to the
    caller wrapped in the function's own message, and the function returns
    [nil] exactly when every call it made succeeded. *)
Theorem saveConnectionRecord_contract
    (c : connectionStore) (record : connection_Record) (t : Trace StoreCall) :
  let save := SaveConnectionRecord record in
  let resolve := SaveDIDByResolving (TheirDID record) (RecipientKeys record) in
  let err := (saveConnectionRecord c record t).1 in
  exists (r : error) (rest : Trace StoreCall),
    (saveConnectionRecord c record t).2 = t ++ (save, r) :: rest
    /\ r = c t.*1 save
    /\ (r = None -> (State record = "completed" <-> resolve ∈ rest.*1))
    /\ (forall call, call ∈ rest.*1 ->
          call = resolve /\ State record = "completed" /\ r = None)
    /\ length rest <= 1
    /\ (forall e, r = Some e ->
          err = Errorf " failed to save connection record : " e)
    /\ (forall e, (resolve, Some e) ∈ rest ->
          err = Errorf " failed to save DID by resolving : " e)
    /\ (err = None <-> forall call e, (call, e) ∈ (save, r) :: rest -> e = None).
Proof.
  intros save resolve err. subst err.
  unfold saveConnectionRecord. rewrite invoke_eq. fold save.
  destruct (c t.*1 save) as [e|] eqn:Hsave.
  - exists (Some e), []. cbn [fst snd fmap list_fmap length].
    split_and!; try done; try lia; try (intros; elem_cases; done).
    + intros e0 [= ->]. reflexivity.
    + split; [discriminate|].
      intros Hall. discriminate (Hall save (Some e)). left.
  - destruct (String.eqb (State record) stateNameCompleted) eqn:Hst.
    + apply eqb_completed in Hst. rewrite invoke_eq. fold resolve.
      destruct (c _ resolve) as [e2|] eqn:Hr2.
      * exists None, [(resolve, Some e2)].
        cbn [fst snd fmap list_fmap length].
        rewrite <- (assoc_L (++)). cbn [app].
        split_and!; try done; try lia; try (intros; elem_cases; done).
        -- intros _. split; [intros _; left | done].
        -- intros e He. elem_cases. congruence.
        -- split; [discriminate|].
           intros Hall. discriminate (Hall resolve (Some e2)). right; left.
      * exists None, [(resolve, None)].
        cbn [fst snd fmap list_fmap length].
        rewrite <- (assoc_L (++)). cbn [app].
        split_and!; try done; try lia; try (intros; elem_cases; done).
        -- intros _. split; [intros _; left | done].
        -- split; [|done]. intros _ call e He. elem_cases; congruence.
    + assert (State record <> "completed") as Hne.
      { intros Heq. apply eqb_completed in Heq. congruence. }
      exists None, []. cbn [fst snd fmap list_fmap length].
      split_and!; try done; try (intros; elem_cases; done).
      * intros _. split; [done | intros; elem_cases].
      * lia.
      * split; [|done]. intros _ call e He. elem_cases; congruence.
Qed.

(** C9.  [saveConnectionRecordWithMapping] first calls
    [SaveConnectionRecordWithMappings]; the only other call it can make is
    the resolution of [MyDID] (with no keys), made exactly when the save
    succeeded and [MyDID] is not empty.  This holds for every state of the
    record, ["completed"] included: the resolution of the peer DID with the
    record's recipient keys is never among its calls, and no call is made
    for [TheirDID] unless that is also the record's [MyDID]. *)
Theorem saveConnectionRecordWithMapping_resolves_MyDID_only
    (c : connectionStore) (record : connection_Record) (t : Trace StoreCall) :
  let save := SaveConnectionRecordWithMappings record in
  exists (r : error) (rest : Trace StoreCall),
    (saveConnectionRecordWithMapping c record t).2 = t ++ (save, r) :: rest
    /\ r = c t.*1 save
    /\ resolutions (save :: rest.*1) =
         (if decide (r = None /\ MyDID record <> "")
          then [(MyDID record, [])] else [])
    /\ (forall call, call ∈ rest.*1 ->
          call = SaveDIDByResolving (MyDID record) [] /\ MyDID record <> "")
    /\ (forall keys, TheirDID record <> MyDID record ->
          SaveDIDByResolving (TheirDID record) keys ∉ rest.*1)
    /\ (RecipientKeys record <> [] ->
          SaveDIDByResolving (TheirDID record) (RecipientKeys record) ∉ rest.*1).
Proof.
  intros save. unfold saveConnectionRecordWithMapping.
  rewrite invoke_eq. fold save.
  destruct (c t.*1 save) as [e|] eqn:Hsave.
  - exists (Some e), []. cbn [fst snd fmap list_fmap].
    split_and!; try done; try (intros; intros ?; elem_cases; done);
      try (intros; elem_cases; done).
    all: subst save; cbn; case_decide as Hd; [destruct Hd; discriminate|reflexivity].
  - destruct (String.eqb (MyDID record) "") eqn:Hmy; cbn [negb].
    + apply String.eqb_eq in Hmy.
      exists None, []. cbn [fst snd fmap list_fmap].
      split_and!; try done; try (intros; intros ?; elem_cases; done);
        try (intros; elem_cases; done).
      all: subst save; cbn; case_decide as Hd; [destruct Hd; congruence|reflexivity].
    + apply String.eqb_neq in Hmy. rewrite invoke_eq.
      set (resolve := SaveDIDByResolving (MyDID record) []).
      exists None, [(resolve, c (t ++ [(save, None)]).*1 resolve)].
      split_and!.
      * rewrite <- (assoc_L (++)).
        destruct (c _ resolve); reflexivity.
      * reflexivity.
      * subst save resolve. cbn.
        case_decide as Hd; [reflexivity|]. exfalso. apply Hd. split; done.
      * intros call Hc. cbn in Hc. elem_cases. split; done.
      * intros keys Hne Hin. cbn in Hin. elem_cases.
        subst resolve. congruence.
      * intros Hkeys Hin. cbn in Hin. elem_cases.
        subst resolve. congruence.
Qed.

(** X20.  [saveConnectionRecordWithMapping] hands the store's error back as
    it is: when a call it made failed, the error it returns is exactly that
    call's error (not wrapped), that call is the last one it made, and it
    returns nil exactly when every call it made succeeded. *)
Theorem saveConnectionRecordWithMapping_returns_store_error
    (c : connectionStore) (record : connection_Record) (t : Trace StoreCall) :
  let res := saveConnectionRecordWithMapping c record t in
  let new := drop (length t) res.2 in
  (forall call x, (call, Some x) ∈ new -> res.1 = Some x)
  /\ (forall x, res.1 = Some x -> exists call, last new = Some (call, Some x))
  /\ (res.1 = None <-> forall call e, (call, e) ∈ new -> e = None).
Proof.
  intros res new. subst new res. unfold saveConnectionRecordWithMapping.
  rewrite invoke_eq.
  set (save := SaveConnectionRecordWithMappings record).
  destruct (c t.*1 save) as [e|] eqn:Hsave.
  - cbn [fst snd]. rewrite drop_app_length.
    split_and!.
    + intros call x Hin. elem_cases. congruence.
    + intros x [= ->]. exists save. reflexivity.
    + split; [discriminate|]. intros Hall. discriminate (Hall save (Some e)). left.
  - destruct (String.eqb (MyDID record) ""); cbn [negb].
    + cbn [fst snd]. rewrite drop_app_length.
      split_and!.
      * intros call x Hin. elem_cases. discriminate.
      * discriminate.
      * split; [|reflexivity]. intros _ call e Hin. elem_cases. congruence.
    + rewrite invoke_eq.
      set (resolve := SaveDIDByResolving (MyDID record) []).
      destruct (c _ resolve) as [e2|] eqn:Hres;
        cbn [fst snd]; rewrite <- (assoc_L (++)), drop_app_length; cbn [app].
      * split_and!.
        -- intros call x Hin. elem_cases; congruence.
        -- intros x [= ->]. exists resolve. reflexivity.
        -- split; [discriminate|]. intros Hall.
           discriminate (Hall resolve (Some e2)). right; left.
      * split_and!.
        -- intros call x Hin. elem_cases; discriminate.
        -- discriminate.
        -- split; [|reflexivity]. intros _ call e Hin. elem_cases; congruence.
Qed.

Lemma saveConnectionRecordWithMapping_nil
    (c : connectionStore) (record : connection_Record) (t : Trace StoreCall) :
  (saveConnectionRecordWithMapping c record t).1 = None ->
  (saveConnectionRecordWithMapping c record t).2 =
    t ++ (SaveConnectionRecordWithMappings record, None)
      :: (if String.eqb (MyDID record) "" then []
          else [(SaveDIDByResolving (MyDID record) [], None)]).
Proof.
  unfold saveConnectionRecordWithMapping. rewrite invoke_eq.
  destruct (c t.*1 _) as [e|]; [discriminate|].
  destruct (String.eqb (MyDID record) ""); cbn [negb]; [reflexivity|].
  rewrite invoke_eq. destruct (c _ _) as [e|]; [discriminate|].
  intros _. cbn [snd]. rewrite <- (assoc_L (++)). reflexivity.
Qed.

Lemma saveConnectionRecord_nil
    (c : connectionStore) (record : connection_Record) (t : Trace StoreCall) :
  (saveConnectionRecord c record t).1 = None ->
  (saveConnectionRecord c record t).2 =
    t ++ (SaveConnectionRecord record, None)
      :: (if String.eqb (State record) stateNameCompleted
          then [(SaveDIDByResolving (TheirDID record) (RecipientKeys record), None)]
          else []).
Proof.
  unfold saveConnectionRecord. rewrite invoke_eq.
  destruct (c t.*1 _) as [e|]; [discriminate|].
  destruct (String.eqb (State record) stateNameCompleted); [|reflexivity].
  rewrite invoke_eq. destruct (c _ _) as [e|]; [discriminate|].
  intros _. cbn [snd]. rewrite <- (assoc_L (++)). reflexivity.
Qed.

(** X21.  A record saved with its mappings and then saved again, both
    without error: the store has been asked for four things at most, in this
    order: the record with its mappings, the resolution of [MyDID] without
    keys when [MyDID] is not empty, the record, and the resolution of
    [TheirDID] with the record's recipient keys when the state is
    ["completed"].  Every one of these calls succeeded. *)
Theorem save_with_mapping_then_save
    (c : connectionStore) (record : connection_Record) (t : Trace StoreCall) :
  let first := saveConnectionRecordWithMapping c record t in
  let second := saveConnectionRecord c record first.2 in
  first.1 = None ->
  second.1 = None ->
  drop (length t) second.2 =
    [(SaveConnectionRecordWithMappings record, None)]
    ++ (if String.eqb (MyDID record) "" then []
        else [(SaveDIDByResolving (MyDID record) [], None)])
    ++ [(SaveConnectionRecord record, None)]
    ++ (if String.eqb (State record) "completed"
        then [(SaveDIDByResolving (TheirDID record) (RecipientKeys record), None)]
        else [])
  /\ resolutions (drop (length t) second.2).*1 =
       (if String.eqb (MyDID record) "" then [] else [(MyDID record, [])])
       ++ (if String.eqb (State record) "completed"
           then [(TheirDID record, RecipientKeys record)] else []).
Proof.
  intros first second Hfirst Hsecond. subst second.
  rewrite (saveConnectionRecord_nil _ _ _ Hsecond). subst first.
  rewrite (saveConnectionRecordWithMapping_nil _ _ _ Hfirst).
  rewrite <- (assoc_L (++)), drop_app_length.
  change stateNameCompleted with "completed".
  split.
  - destruct (String.eqb (MyDID record) ""); reflexivity.
  - destruct (String.eqb (MyDID record) ""),
      (String.eqb (State record) "completed"); reflexivity.
Qed.

End DidexchangePersistence.

(** * Properties of package introduce *)

Section IntroduceStates.
Import Introduce.
Context `{Package}.

(** ** Transitions *)

Lemma CanTransitionTo_table (s n : state) :
  CanTransitionTo s n = bool_decide (n ∈ spec_legal_next s).
Proof. destruct s, n; vm_compute; reflexivity. Qed.

(** C1.  For every pair of states [s] and [n] among the ten states of the
    protocol, [s.CanTransitionTo(n)] is true exactly when the transition
    table of the specification lists [n] as a legal next state of [s]. *)
Theorem CanTransitionTo_iff_spec_table (s n : state) :
  CanTransitionTo s n = true <-> n ∈ spec_legal_next s.
Proof. rewrite CanTransitionTo_table. apply bool_decide_eq_true. Qed.

(** ** The approve signal *)

Lemma getApproveFromMsg_cases (msg : service_DIDCommMsg) :
  getApproveFromMsg msg =
    match Msg_Decode msg with
    | Some r => if String.eqb (Msg_Type msg) ResponseMsgType
                then (Approve r, true) else (false, false)
    | None => (false, false)
    end.
Proof.
  unfold getApproveFromMsg.
  destruct (String.eqb _ _), (Msg_Decode msg); reflexivity.
Qed.

Lemma getApproveFromMsg_absent (msg : service_DIDCommMsg) :
  Msg_Type msg <> ResponseMsgType \/ Msg_Decode msg = None ->
  getApproveFromMsg msg = (false, false).
Proof.
  intros [Hty | Hdec]; rewrite getApproveFromMsg_cases.
  - apply String.eqb_neq in Hty. rewrite Hty. destruct (Msg_Decode msg); reflexivity.
  - rewrite Hdec. reflexivity.
Qed.

(** ** States that send nothing *)

(** C8.  [done.ExecuteInbound] returns the [noOp] followup and a nil error
    for every messenger, context and world, and leaves the world as it
    found it: no messenger call is made. *)
Theorem done_ExecuteInbound_noOp
    (messenger : service_Messenger) (m : metaData) (w : World) :
  ExecuteInbound done messenger m w = (Returned (Some noOp, None), w).
Proof. reflexivity. Qed.

(** C4.  When the triggering message has type [ResponseMsgType] and
    [isSkipProposal] holds of the context, [arranging.ExecuteInbound]
    returns the [delivering] state and a nil error, and leaves the world as
    it found it: no messenger call is made. *)
Theorem arranging_skip_proposal
    (messenger : service_Messenger) (m : metaData) (w : World) :
  Msg_Type (Msg m) = ResponseMsgType ->
  isSkipProposal m = true ->
  ExecuteInbound arranging messenger m w = (Returned (Some delivering, None), w).
Proof.
  intros Hty Hskip. cbn [ExecuteInbound]. unfold arranging_ExecuteInbound.
  rewrite Hty, String.eqb_refl, Hskip. reflexivity.
Qed.

(** C10.  When the message carries no disapproval (no approve signal, or
    an approval), the skip-proposal test is false and the context holds no
    invitation, [delivering.ExecuteInbound] returns the [abandoning] state
    and a nil error, and leaves the world as it found it: no messenger call
    is made. *)
Theorem delivering_no_invitation
    (messenger : service_Messenger) (m : metaData) (w : World) :
  (getApproveFromMsg (Msg m)).2 = false \/ (getApproveFromMsg (Msg m)).1 = true ->
  isSkipProposal m = false ->
  Invitation m = None ->
  ExecuteInbound delivering messenger m w = (Returned (Some abandoning, None), w).
Proof.
  intros Hsig Hskip Hinv. cbn [ExecuteInbound]. unfold delivering_ExecuteInbound.
  destruct (getApproveFromMsg (Msg m)) as [approve ok]. cbn [fst snd] in Hsig.
  assert (ok && negb approve = false) as ->
    by (destruct Hsig as [-> | ->]; [reflexivity | apply andb_false_r]).
  rewrite Hskip, Hinv. reflexivity.
Qed.

(** ** Recipients *)

Ltac unfold_exec :=
  unfold bind, ret, panic, call, deref, assign, new, index, slice_to,
    assert_DIDCommMsgMap in *.

Lemma fillRecipient_nil (m : metaData) (w : World) :
  fillRecipient [] m w =
    (Returned [Some (length (heap w))],
     {| heap := heap w ++ [{| To := None; MyDID := myDID m; TheirDID := theirDID m |}];
        calls := calls w |}).
Proof. reflexivity. Qed.

Lemma bind_Returned {A B} (e : Exec A) (k : A -> Exec B) (w w' : World) (a : A) :
  e w = (Returned a, w') -> bind e k w = k a w'.
Proof. unfold bind. intros ->. reflexivity. Qed.

Lemma bind_Panicked {A B} (e : Exec A) (k : A -> Exec B) (w w' : World) :
  e w = (Panicked, w') -> bind e k w = (Panicked, w').
Proof. unfold bind. intros ->. reflexivity. Qed.

Lemma deref_Some (a : nat) (r : Recipient) (w : World) :
  heap w !! a = Some r -> deref (Some a) w = (Returned r, w).
Proof. unfold deref. intros ->. reflexivity. Qed.

Lemma assign_Some (a : nat) (old r : Recipient) (w : World) :
  heap w !! a = Some old ->
  assign (Some a) r w = (Returned tt, {| heap := <[a := r]> (heap w); calls := calls w |}).
Proof. unfold assign. intros ->. reflexivity. Qed.

Lemma fillRecipient_cons (m : metaData) (w : World)
    (a : nat) (rest : list ptr) (old : Recipient) :
  heap w !! a = Some old ->
  fillRecipient (Some a :: rest) m w =
    (Returned (Some a :: rest),
     {| heap := <[a := {| To := To old;
                          MyDID := if String.eqb (MyDID old) "" then myDID m else MyDID old;
                          TheirDID := if String.eqb (TheirDID old) "" then theirDID m
                                      else TheirDID old |}]> (heap w);
        calls := calls w |}).
Proof.
  intros Hold. pose proof (lookup_lt_Some _ _ _ Hold) as Hlt.
  unfold fillRecipient. cbn [length Nat.eqb].
  rewrite (bind_Returned (index (Some a :: rest) 0) _ w w (Some a) eq_refl).
  rewrite (bind_Returned _ _ w w old (deref_Some _ _ _ Hold)).
  destruct (String.eqb (MyDID old) "") eqn:Hmy.
  - erewrite bind_Returned by (eapply assign_Some; exact Hold).
    erewrite bind_Returned
      by (apply deref_Some; cbn [heap]; apply list_lookup_insert_eq; exact Hlt).
    cbn [To MyDID TheirDID].
    destruct (String.eqb (TheirDID old) "") eqn:Hth.
    + erewrite bind_Returned
        by (eapply assign_Some; cbn [heap]; apply list_lookup_insert_eq; exact Hlt).
      unfold ret. cbn [heap calls]. rewrite list_insert_insert_eq. reflexivity.
    + reflexivity.
  - rewrite (bind_Returned (ret tt) _ w w tt eq_refl).
    rewrite (bind_Returned _ _ w w old (deref_Some _ _ _ Hold)).
    destruct (String.eqb (TheirDID old) "") eqn:Hth.
    + erewrite bind_Returned by (eapply assign_Some; exact Hold).
      destruct old; reflexivity.
    + rewrite (bind_Returned (ret tt) _ w w tt eq_refl).
      unfold ret. rewrite list_insert_id; [destruct w; reflexivity|].
      rewrite Hold. destruct old; reflexivity.
Qed.

Lemma fillRecipient_calls (recipients : list ptr) (m : metaData) (w : World) :
  calls (fillRecipient recipients m w).2 = calls w.
Proof.
  destruct recipients as [|[a|] rest]; [reflexivity| |reflexivity].
  destruct (heap w !! a) as [old|] eqn:Hold.
  - rewrite (fillRecipient_cons _ _ _ _ _ Hold). reflexivity.
  - unfold fillRecipient. cbn [length Nat.eqb].
    rewrite (bind_Returned (index (Some a :: rest) 0) _ w w (Some a) eq_refl).
    erewrite bind_Panicked; [reflexivity|].
    unfold deref. rewrite Hold. reflexivity.
Qed.

(** C7.  On an empty (or nil) list [fillRecipient] returns a list of
    exactly one pointer, to a new recipient whose [MyDID] and [TheirDID] are
    the context's [myDID] and [theirDID]; every recipient that existed
    before is unchanged.  On a non-empty list whose first pointer refers to
    a recipient [old] it returns the same list of pointers; afterwards the
    first recipient has [myDID] for [MyDID] if that field of [old] was empty
    and the field of [old] otherwise, likewise [TheirDID], and the [To] of
    [old]; every recipient at another address is unchanged.  No messenger
    call is made in either case. *)
Theorem fillRecipient_backfills_first_only (m : metaData) (w : World) :
  (exists w',
      fillRecipient [] m w = (Returned [Some (length (heap w))], w')
      /\ heap w' !! length (heap w)
           = Some {| To := None; MyDID := myDID m; TheirDID := theirDID m |}
      /\ (forall b, b < length (heap w) -> heap w' !! b = heap w !! b)
      /\ calls w' = calls w)
  /\ (forall (a : nat) (rest : list ptr) (old : Recipient),
        heap w !! a = Some old ->
        exists (w' : World) (r : Recipient),
          fillRecipient (Some a :: rest) m w = (Returned (Some a :: rest), w')
          /\ heap w' !! a = Some r
          /\ (MyDID old <> "" -> MyDID r = MyDID old)
          /\ (MyDID old = "" -> MyDID r = myDID m)
          /\ (TheirDID old <> "" -> TheirDID r = TheirDID old)
          /\ (TheirDID old = "" -> TheirDID r = theirDID m)
          /\ To r = To old
          /\ (forall b, b <> a -> heap w' !! b = heap w !! b)
          /\ length (heap w') = length (heap w)
          /\ calls w' = calls w).
Proof.
  split.
  - eexists. rewrite fillRecipient_nil. split_and!; [reflexivity| | |reflexivity].
    + cbn [heap]. rewrite lookup_app_r by lia. rewrite Nat.sub_diag. reflexivity.
    + intros b Hb. cbn [heap]. apply lookup_app_l. exact Hb.
  - intros a rest old Hold. pose proof (lookup_lt_Some _ _ _ Hold) as Hlt.
    eexists _, _. rewrite (fillRecipient_cons _ _ _ _ _ Hold).
    split_and!; [reflexivity|..]; cbn [heap calls To MyDID TheirDID].
    + apply list_lookup_insert_eq. exact Hlt.
    + intros Hne. apply String.eqb_neq in Hne. rewrite Hne. reflexivity.
    + intros ->. reflexivity.
    + intros Hne. apply String.eqb_neq in Hne. rewrite Hne. reflexivity.
    + intros ->. reflexivity.
    + reflexivity.
    + intros b Hb. apply list_lookup_insert_ne. congruence.
    + apply length_insert.
    + reflexivity.
Qed.

(** ** Problem reports *)

Lemma sendProblemReport_cons (messenger : service_Messenger) (m : metaData)
    (a : nat) (rest : list ptr) (r : Recipient) (w : World) :
  heap w !! a = Some r ->
  let c := ReplyToNested (ThreadID m)
             (MapOfProblemReport {| ProblemReport_Type := ProblemReportMsgType |})
             (MyDID r) (TheirDID r) in
  let e := messenger (calls w).*1 c in
  let w1 := {| heap := heap w; calls := calls w ++ [(c, e)] |} in
  sendProblemReport messenger m (Some a :: rest) w =
    match e with
    | Some x => (Returned (None, Errorf "send problem-report: " x), w1)
    | None => sendProblemReport messenger m rest w1
    end.
Proof.
  intros Hr c e w1. cbn [sendProblemReport].
  rewrite (bind_Returned _ _ w w r (deref_Some _ _ _ Hr)).
  rewrite (bind_Returned (call messenger c) _ w w1 e eq_refl).
  destruct e; reflexivity.
Qed.

Lemma sendProblemReport_dangling (messenger : service_Messenger) (m : metaData)
    (p : ptr) (rest : list ptr) (w : World) :
  deref p w = (Panicked, w) ->
  sendProblemReport messenger m (p :: rest) w = (Panicked, w).
Proof. intros Hp. cbn [sendProblemReport]. apply bind_Panicked. exact Hp. Qed.

Lemma deref_cases (p : ptr) (w : World) :
  (exists a r, p = Some a /\ heap w !! a = Some r) \/ deref p w = (Panicked, w).
Proof.
  destruct p as [a|]; [|right; reflexivity].
  destruct (heap w !! a) as [r|] eqn:Hr; [left; eauto|].
  right. unfold deref. rewrite Hr. reflexivity.
Qed.

(** The calls [sendProblemReport] makes: problem-reports of the thread, at
    most one per recipient, stopping at the first that fails. *)
Lemma sendProblemReport_trace (messenger : service_Messenger) (m : metaData)
    (recipients : list ptr) :
  forall w : World,
    let res := sendProblemReport messenger m recipients w in
    exists new : Trace MessengerCall,
      calls res.2 = calls w ++ new
      /\ heap res.2 = heap w
      /\ Forall (is_problem_report (ThreadID m)) new.*1
      /\ length new <= length recipients
      /\ (forall i c e, new !! i = Some (c, Some e) ->
            S i = length new /\ failed res.1)
      /\ (fully_succeeds res.1 \/ failed res.1)
      /\ (fully_succeeds res.1 ->
            res.1 = Returned (Some done, None) /\ length new = length recipients).
Proof.
  induction recipients as [|p rest IH]; intros w res; subst res.
  - exists []. cbn. rewrite app_nil_r.
    split_and!; first [done | lia | by constructor | by left].
  - destruct (deref_cases p w) as [(a & r & -> & Hr) | Hp].
    + rewrite (sendProblemReport_cons _ _ _ _ _ _ Hr).
      set (c := ReplyToNested _ _ _ _).
      destruct (messenger (calls w).*1 c) as [x|] eqn:He.
      * exists [(c, Some x)]. cbn [fst snd heap calls length].
        split_and!; try done.
        -- repeat constructor. eexists _, _. reflexivity.
        -- lia.
        -- intros [|i] c' e' Hi; [|destruct i; discriminate]. split; [reflexivity|exact I].
        -- right. exact I.
      * destruct (IH {| heap := heap w; calls := calls w ++ [(c, None)] |})
          as (new & Hcalls & Hheap & Hall & Hlen & Hlast & Hcase & Hok).
        exists ((c, None) :: new). cbn [heap calls] in *.
        split_and!.
        -- etransitivity; [exact Hcalls|]. rewrite <- (assoc_L (++)). reflexivity.
        -- exact Hheap.
        -- cbn. constructor; [eexists _, _; reflexivity | exact Hall].
        -- cbn [length]. lia.
        -- intros [|i] c' e' Hi; [discriminate|].
           destruct (Hlast i c' e' Hi) as [Hi1 Hi2]. split; [cbn [length]; lia | exact Hi2].
        -- exact Hcase.
        -- intros Hs. destruct (Hok Hs) as [Hres Hn]. split; [exact Hres | cbn [length]; lia].
    + rewrite (sendProblemReport_dangling _ _ _ _ _ Hp).
      exists []. cbn. rewrite app_nil_r.
      split_and!; first [done | lia | by constructor | by right].
Qed.

(** ** abandoning *)

(** The first step of [abandoning.ExecuteInbound]: the recipient made for
    a Request. It only adds a recipient to the heap. *)
Lemma abandoning_request_step (m : metaData) (w : World) :
  exists (rs : list ptr) (w0 : World),
    (if String.eqb (Msg_Type (Msg m)) RequestMsgType
     then fillRecipient [] m else ret []) w = (Returned rs, w0)
    /\ calls w0 = calls w
    /\ (forall a old, heap w !! a = Some old -> heap w0 !! a = Some old).
Proof.
  destruct (String.eqb _ _).
  - eexists _, _. rewrite fillRecipient_nil. split_and!; [reflexivity..|].
    intros a old Hold. cbn [heap]. apply lookup_app_l_Some. exact Hold.
  - exists [], w. split_and!; [reflexivity..|]. auto.
Qed.

Lemma sendProblemReport_one (messenger : service_Messenger) (m : metaData)
    (a : nat) (r : Recipient) (w : World) :
  heap w !! a = Some r ->
  let c := ReplyToNested (ThreadID m)
             (MapOfProblemReport {| ProblemReport_Type := ProblemReportMsgType |})
             (MyDID r) (TheirDID r) in
  let e := messenger (calls w).*1 c in
  sendProblemReport messenger m [Some a] w =
    (Returned match e with
              | Some x => (None, Errorf "send problem-report: " x)
              | None => (Some done, None)
              end,
     {| heap := heap w; calls := calls w ++ [(c, e)] |}).
Proof.
  intros Hr c e. rewrite (sendProblemReport_cons _ _ _ _ _ _ Hr).
  fold c e. destruct e; reflexivity.
Qed.

(** C3.  Let [abandoning.ExecuteInbound] process a message of type
    [ResponseMsgType] that decodes to a Response with [Approve = false], in
    a context whose recipient list is empty or starts with a pointer to a
    recipient.  If [WaitCount] is 1 it returns [done] and a nil error and
    calls the messenger not at all.  Otherwise it calls the messenger
    exactly once, with a problem-report of the thread addressed to
    recipient[0] (its own DIDs where it has them, the context's [myDID] and
    [theirDID] where they are empty or the list is empty), and returns
    [done] when the messenger accepts the report (the wrapped error when it
    does not). *)
Theorem abandoning_disapproval
    (messenger : service_Messenger) (m : metaData) (w : World) (r : Response) :
  Msg_Type (Msg m) = ResponseMsgType ->
  Msg_Decode (Msg m) = Some r ->
  Approve r = false ->
  (Recipients m = [] \/
   exists a rest old, Recipients m = Some a :: rest /\ heap w !! a = Some old) ->
  let res := ExecuteInbound abandoning messenger m w in
  (WaitCount m = 1%Z ->
     res.1 = Returned (Some done, None) /\ calls res.2 = calls w)
  /\ (WaitCount m <> 1%Z ->
       exists my their : string,
         (Recipients m = [] -> my = myDID m /\ their = theirDID m)
         /\ (forall a rest old,
               Recipients m = Some a :: rest -> heap w !! a = Some old ->
               my = (if String.eqb (MyDID old) "" then myDID m else MyDID old)
               /\ their = (if String.eqb (TheirDID old) "" then theirDID m
                           else TheirDID old))
         /\ let c := ReplyToNested (ThreadID m)
                       (MapOfProblemReport {| ProblemReport_Type := ProblemReportMsgType |})
                       my their in
            let e := messenger (calls w).*1 c in
            calls res.2 = calls w ++ [(c, e)]
            /\ (e = None -> res.1 = Returned (Some done, None))
            /\ (forall x, e = Some x ->
                  res.1 = Returned (None, Errorf "send problem-report: " x))).
Proof.
  intros Hty Hdec Happ Hrec res. subst res.
  cbn [ExecuteInbound]. unfold abandoning_ExecuteInbound.
  destruct (abandoning_request_step m w) as (rs0 & w0 & Hstep & Hcalls0 & Hheap0).
  rewrite (bind_Returned _ _ _ _ _ Hstep).
  rewrite Hty, String.eqb_refl.
  assert (getApproveFromMsg (Msg m) = (false, true)) as ->.
  { rewrite getApproveFromMsg_cases, Hdec, Hty, String.eqb_refl, Happ. reflexivity. }
  cbn [andb negb].
  assert (exists a rest r0 w1,
            fillRecipient (Recipients m) m w0 = (Returned (Some a :: rest), w1)
            /\ heap w1 !! a = Some r0 /\ calls w1 = calls w
            /\ (Recipients m = [] -> MyDID r0 = myDID m /\ TheirDID r0 = theirDID m)
            /\ (forall a' rest' old,
                  Recipients m = Some a' :: rest' -> heap w !! a' = Some old ->
                  MyDID r0 = (if String.eqb (MyDID old) "" then myDID m else MyDID old)
                  /\ TheirDID r0 = (if String.eqb (TheirDID old) "" then theirDID m
                                    else TheirDID old)))
    as (a & rest & r0 & w1 & Hfill & Hr0 & Hcalls1 & Hnil & Hcons).
  { destruct Hrec as [Hnone | (a & rest & old & Hsome & Hold)].
    - rewrite Hnone, fillRecipient_nil. eexists _, [], _, _.
      split_and!; [reflexivity| |exact Hcalls0| |].
      + cbn [heap]. rewrite lookup_app_r by lia. rewrite Nat.sub_diag. reflexivity.
      + intros _. split; reflexivity.
      + intros a' rest' old. discriminate.
    - rewrite Hsome, (fillRecipient_cons _ _ _ _ _ (Hheap0 _ _ Hold)).
      eexists _, _, _, _.
      split_and!; [reflexivity| |exact Hcalls0| |].
      + cbn [heap]. apply list_lookup_insert_eq.
        exact (lookup_lt_Some _ _ _ (Hheap0 _ _ Hold)).
      + intros Hnil. rewrite Hnil in Hsome. discriminate.
      + intros a' rest' old' [= <- <-] Hold'.
        assert (old' = old) as -> by congruence. split; reflexivity. }
  rewrite (bind_Returned _ _ _ _ _ Hfill).
  split.
  - intros ->. cbn [Z.eqb Pos.eqb]. unfold ret. cbn [fst snd]. split; [reflexivity|exact Hcalls1].
  - intros Hwc. apply Z.eqb_neq in Hwc. rewrite Hwc.
    rewrite (bind_Returned (slice_to (Some a :: rest) 1) _ w1 w1 [Some a] eq_refl).
    rewrite (sendProblemReport_one _ _ _ _ _ Hr0). cbn [fst snd calls].
    exists (MyDID r0), (TheirDID r0). rewrite Hcalls1.
    split_and!; [exact Hnil | exact Hcons | reflexivity | |].
    + intros ->. reflexivity.
    + intros x ->. reflexivity.
Qed.

(** ** Messages without an approve signal *)

Ltac exec_cases :=
  unfold_exec;
  repeat (cbn [fst snd heap calls];
          match goal with
          | |- context [match ?x with _ => _ end] =>
              lazymatch x with
              | context [match _ with _ => _ end] => fail
              | _ => destruct x eqn:?
              end
          end).

(** C6.  For a message whose type is not [ResponseMsgType], or whose
    payload does not decode as a Response, [getApproveFromMsg] answers
    (false, false): no approve signal.  Such a message takes none of the
    disapproval branches: [arranging.ExecuteInbound] does not return
    [abandoning]; [delivering.ExecuteInbound] returns [abandoning] only
    through its no-invitation case; and [abandoning.ExecuteInbound] neither
    stops at wait count 1 nor cuts the recipients down to the first, it
    reports the problem to all the recipients it has. *)
Theorem no_approve_signal_is_not_disapproval
    (messenger : service_Messenger) (m : metaData) (w : World) :
  Msg_Type (Msg m) <> ResponseMsgType \/ Msg_Decode (Msg m) = None ->
  getApproveFromMsg (Msg m) = (false, false)
  /\ (forall e, (ExecuteInbound arranging messenger m w).1
                <> Returned (Some abandoning, e))
  /\ (forall e, (ExecuteInbound delivering messenger m w).1
                = Returned (Some abandoning, e) ->
                isSkipProposal m = false /\ Invitation m = None)
  /\ ExecuteInbound abandoning messenger m w =
       (let* recipients :=
          if String.eqb (Msg_Type (Msg m)) RequestMsgType
          then fillRecipient [] m else ret [] in
        let* recipients :=
          if String.eqb (Msg_Type (Msg m)) ResponseMsgType
          then fillRecipient (Recipients m) m else ret recipients in
        sendProblemReport messenger m recipients) w.
Proof.
  intros Habsent. pose proof (getApproveFromMsg_absent _ Habsent) as Hget.
  split_and!.
  - exact Hget.
  - intros e. cbn [ExecuteInbound]. unfold arranging_ExecuteInbound.
    rewrite Hget. cbn [andb].
    destruct (String.eqb _ _ && isSkipProposal m); [discriminate|].
    exec_cases; discriminate.
  - intros e. cbn [ExecuteInbound]. unfold delivering_ExecuteInbound.
    rewrite Hget. cbn [andb].
    destruct (isSkipProposal m) eqn:Hskip.
    + unfold deliveringSkipInvitation. exec_cases; discriminate.
    + destruct (Invitation m) eqn:Hinv; [|split; reflexivity].
      exec_cases; discriminate.
  - cbn [ExecuteInbound]. unfold abandoning_ExecuteInbound.
    rewrite Hget. reflexivity.
Qed.

(** ** Sends and failures *)













(** ** Names, transitions and followups *)

(** X1.  [toDestIDx] always answers 0 or 1 and never the index it was given;
    on the two introducee indices it is the swap, so applying it twice gives
    the index back. *)
Theorem toDestIDx_other_party (idx : Z) :
  (toDestIDx idx = 0 \/ toDestIDx idx = 1)%Z
  /\ toDestIDx idx <> idx
  /\ ((idx = 0 \/ idx = 1)%Z -> toDestIDx (toDestIDx idx) = idx).
Proof.
  unfold toDestIDx. destruct (Z.eqb_spec idx 0) as [-> | Hne].
  - split_and!; [right; reflexivity | discriminate | reflexivity].
  - split_and!; [left; reflexivity | congruence |].
    intros [-> | ->]; [congruence | reflexivity].
Qed.

(** X2.  The ten states have ten different names: two states with the same
    [Name] are the same state, so the comparisons by name in
    [CanTransitionTo] tell the states apart. *)
Theorem Name_identifies_state (s t : state) :
  Name s = Name t <-> s = t.
Proof.
  split; [|intros ->; reflexivity].
  destruct s, t; intros Hn; first [reflexivity | vm_compute in Hn; discriminate Hn].
Qed.


(** X4.  The executions that the source marks as not supposed to be used
    (inbound for [noOp], [start] and [requesting]; outbound for every state
    but [arranging] and [requesting]) return a nil followup and an error,
    call the messenger not at all and leave the world as it was. *)
Theorem unsupported_execution_fails (inbound : bool) (s : state)
    (messenger : service_Messenger) (m : metaData) (w : World) :
  (if inbound then s ∈ [noOp; start; requesting]
   else s ∉ [arranging; requesting]) ->
  exists text : string,
    Execute inbound s messenger m w = (Returned (None, Some text), w).
Proof.
  destruct inbound; intros Hs.
  - apply elem_of_cons in Hs as [-> | Hs]; [eexists; reflexivity|].
    apply elem_of_cons in Hs as [-> | Hs]; [eexists; reflexivity|].
    apply list_elem_of_singleton in Hs as ->. eexists; reflexivity.
  - destruct s; try (eexists; reflexivity); exfalso; apply Hs;
      [left | right; left].
Qed.

(** X5.  Only [abandoning] touches the recipients: an execution of any
    other state, inbound or outbound, leaves every recipient as it was,
    whether it returns or panics. *)
Theorem only_abandoning_changes_recipients (inbound : bool) (s : state)
    (messenger : service_Messenger) (m : metaData) (w : World) :
  s <> abandoning ->
  heap (Execute inbound s messenger m w).2 = heap w.
Proof.
  intros Hs.
  destruct s, inbound; try congruence;
    cbn [Execute ExecuteInbound ExecuteOutbound]; try reflexivity.
  - unfold arranging_ExecuteInbound. exec_cases; reflexivity.
  - unfold arranging_ExecuteOutbound. exec_cases; reflexivity.
  - unfold delivering_ExecuteInbound, deliveringSkipInvitation.
    exec_cases; reflexivity.
  - unfold confirming_ExecuteInbound. exec_cases; reflexivity.
  - unfold requesting_ExecuteOutbound. exec_cases; reflexivity.
Qed.

Lemma bind_Returned_inv {A B} (e : Exec A) (k : A -> Exec B) (w : World) (b : B) :
  (bind e k w).1 = Returned b ->
  exists a w', e w = (Returned a, w') /\ (k a w').1 = Returned b.
Proof.
  unfold bind. destruct (e w) as [[a|] w']; [eauto | discriminate].
Qed.

Lemma sendProblemReport_followup (messenger : service_Messenger) (m : metaData)
    (recipients : list ptr) :
  forall (w : World) (f : state) (e : error),
    (sendProblemReport messenger m recipients w).1 = Returned (Some f, e) ->
    f = done /\ e = None.
Proof.
  induction recipients as [|p rest IH]; intros w f e.
  - cbn. intros [= <- <-]. split; reflexivity.
  - destruct (deref_cases p w) as [(a & r & -> & Hr) | Hp].
    + rewrite (sendProblemReport_cons _ _ _ _ _ _ Hr).
      destruct (messenger _ _); [discriminate | apply IH].
    + rewrite (sendProblemReport_dangling _ _ _ _ _ Hp). discriminate.
Qed.

Lemma abandoning_followup (messenger : service_Messenger) (m : metaData)
    (w : World) (f : state) (e : error) :
  (abandoning_ExecuteInbound messenger m w).1 = Returned (Some f, e) ->
  f = done /\ e = None.
Proof.
  unfold abandoning_ExecuteInbound. intros Hres.
  apply bind_Returned_inv in Hres as (rs0 & w0 & _ & Hres).
  apply bind_Returned_inv in Hres as (rs & w1 & _ & Hres).
  destruct (getApproveFromMsg (Msg m)) as [approve ok].
  destruct (ok && negb approve);
    [|exact (sendProblemReport_followup _ _ _ _ _ _ Hres)].
  destruct (WaitCount m =? 1)%Z.
  - injection Hres as <- <-. split; reflexivity.
  - apply bind_Returned_inv in Hres as (rs1 & w2 & _ & Hres).
    exact (sendProblemReport_followup _ _ _ _ _ _ Hres).
Qed.

(** X6.  Whatever an execution returns as followup is [noOp] or a state
    that [CanTransitionTo] allows after the executing state: the states never
    hand the machine an illegal next state. *)
Theorem followup_is_legal (inbound : bool) (s : state)
    (messenger : service_Messenger) (m : metaData) (w : World)
    (f : state) (e : error) :
  (Execute inbound s messenger m w).1 = Returned (Some f, e) ->
  f = noOp \/ CanTransitionTo s f = true.
Proof.
  destruct (decide (s = abandoning)) as [-> | Hs].
  - destruct inbound; cbn [Execute ExecuteInbound ExecuteOutbound].
    + intros Hres. apply abandoning_followup in Hres as [-> _].
      right. reflexivity.
    + discriminate.
  - destruct s, inbound; try congruence;
      cbn [Execute ExecuteInbound ExecuteOutbound];
      try (intros Hres; first [discriminate Hres
                              | injection Hres as <- <-; left; reflexivity]).
    + unfold arranging_ExecuteInbound. exec_cases; intros Hres;
        first [discriminate Hres
              | injection Hres as <- <-;
                first [left; reflexivity | right; reflexivity]].
    + unfold arranging_ExecuteOutbound. exec_cases; intros Hres;
        first [discriminate Hres
              | injection Hres as <- <-;
                first [left; reflexivity | right; reflexivity]].
    + unfold delivering_ExecuteInbound, deliveringSkipInvitation.
      exec_cases; intros Hres;
        first [discriminate Hres
              | injection Hres as <- <-;
                first [left; reflexivity | right; reflexivity]].
    + unfold confirming_ExecuteInbound. exec_cases; intros Hres;
        first [discriminate Hres
              | injection Hres as <- <-;
                first [left; reflexivity | right; reflexivity]].
    + unfold deciding_ExecuteInbound. exec_cases; intros Hres;
        first [discriminate Hres
              | injection Hres as <- <-;
                first [left; reflexivity | right; reflexivity]].
    + unfold requesting_ExecuteOutbound. exec_cases; intros Hres;
        first [discriminate Hres
              | injection Hres as <- <-;
                first [left; reflexivity | right; reflexivity]].
Qed.

(** ** What each state sends *)

Lemma index_Some {A} (s : list A) (i : Z) (x : A) (w : World) :
  (0 <= i)%Z -> s !! Z.to_nat i = Some x -> index s i w = (Returned x, w).
Proof.
  intros Hi Hx. unfold index.
  destruct (Z.ltb_spec i 0) as [Hlt | _]; [lia|]. rewrite Hx. reflexivity.
Qed.

Lemma index_out_of_range {A} (s : list A) (i : Z) (w : World) :
  (i < 0 \/ Z.of_nat (length s) <= i)%Z -> index s i w = (Panicked, w).
Proof.
  intros Hi. unfold index.
  destruct (Z.ltb_spec i 0) as [Hlt | Hge]; [reflexivity|].
  rewrite lookup_ge_None_2 by lia. reflexivity.
Qed.

Lemma no_disapproval_guard (msg : service_DIDCommMsg) :
  (getApproveFromMsg msg).2 = false \/ (getApproveFromMsg msg).1 = true ->
  exists approve ok,
    getApproveFromMsg msg = (approve, ok) /\ ok && negb approve = false.
Proof.
  destruct (getApproveFromMsg msg) as [approve ok]. cbn [fst snd].
  intros [-> | ->]; eexists _, _; (split; [reflexivity|]);
    [reflexivity | apply andb_false_r].
Qed.

Lemma disapproval_guard (msg : service_DIDCommMsg) (r : Response) :
  Msg_Type msg = ResponseMsgType -> Msg_Decode msg = Some r -> Approve r = false ->
  getApproveFromMsg msg = (false, true).
Proof.
  intros Hty Hdec Happ.
  rewrite getApproveFromMsg_cases, Hdec, Hty, String.eqb_refl, Happ. reflexivity.
Qed.

(** X7.  When the skip-proposal branch is not taken and the message carries
    no disapproval, [arranging.ExecuteInbound] makes exactly one messenger
    call: it sends a Proposal of the thread, with the destination and DIDs of
    recipient 0 when [WaitCount] is the initial wait count and of recipient 1
    otherwise.  It returns [noOp] together with whatever error the messenger
    answered, unwrapped, so a failed send still comes with a followup. *)
Theorem arranging_sends_proposal
    (messenger : service_Messenger) (m : metaData) (w : World)
    (a : nat) (r : Recipient) :
  String.eqb (Msg_Type (Msg m)) ResponseMsgType && isSkipProposal m = false ->
  (getApproveFromMsg (Msg m)).2 = false \/ (getApproveFromMsg (Msg m)).1 = true ->
  Recipients m !! (if (WaitCount m =? initialWaitCount)%Z then 0 else 1)
    = Some (Some a) ->
  heap w !! a = Some r ->
  let c := Send (MapOfProposal {| Proposal_Type := ProposalMsgType;
                                  Proposal_To := To r;
                                  Proposal_Thread := Some {| Thread_ID := ThreadID m |} |})
                (MyDID r) (TheirDID r) in
  let e := messenger (calls w).*1 c in
  ExecuteInbound arranging messenger m w =
    (Returned (Some noOp, e),
     {| heap := heap w; calls := calls w ++ [(c, e)] |}).
Proof.
  intros Hskip Hsig Hrec Hr c e.
  cbn [ExecuteInbound]. unfold arranging_ExecuteInbound. rewrite Hskip.
  destruct (no_disapproval_guard _ Hsig) as (approve & ok & -> & ->).
  assert ((if (WaitCount m =? initialWaitCount)%Z
           then index (Recipients m) 0 else index (Recipients m) 1) w
          = (Returned (Some a), w)) as Hidx.
  { destruct (WaitCount m =? initialWaitCount)%Z;
      apply index_Some; first [lia | exact Hrec]. }
  rewrite (bind_Returned _ _ _ _ _ Hidx).
  rewrite (bind_Returned _ _ _ _ _ (deref_Some _ _ _ Hr)).
  reflexivity.
Qed.

(** X8.  A Response that decodes to [Approve = false] makes
    [delivering.ExecuteInbound] return [abandoning] with no error and no
    messenger call, whether or not the skip-proposal test holds.  In
    [arranging.ExecuteInbound] the skip-proposal test comes first: the same
    message gives [delivering] when the test holds and [abandoning] when it
    does not, again without a messenger call. *)
Theorem disapproval_routing
    (messenger : service_Messenger) (m : metaData) (w : World) (r : Response) :
  Msg_Type (Msg m) = ResponseMsgType ->
  Msg_Decode (Msg m) = Some r ->
  Approve r = false ->
  ExecuteInbound delivering messenger m w = (Returned (Some abandoning, None), w)
  /\ ExecuteInbound arranging messenger m w =
       (Returned (Some (if isSkipProposal m then delivering else abandoning), None), w).
Proof.
  intros Hty Hdec Happ. pose proof (disapproval_guard _ _ Hty Hdec Happ) as Hget.
  cbn [ExecuteInbound]. unfold delivering_ExecuteInbound, arranging_ExecuteInbound.
  rewrite Hget, Hty, String.eqb_refl. cbn [andb negb].
  split; [reflexivity|]. destruct (isSkipProposal m); reflexivity.
Qed.

(** X9.  Without disapproval and without skip-proposal, and with an
    invitation in the context, [delivering.ExecuteInbound] makes exactly one
    messenger call: it relays that invitation in the thread to the recipient
    at [toDestIDx(IntroduceeIndex)], the other introducee.  It returns
    [confirming] when the messenger accepts, and a nil followup with the
    wrapped error when it does not. *)
Theorem delivering_relays_invitation
    (messenger : service_Messenger) (m : metaData) (w : World)
    (inv : didexchange_Invitation) (a : nat) (r : Recipient) :
  (getApproveFromMsg (Msg m)).2 = false \/ (getApproveFromMsg (Msg m)).1 = true ->
  isSkipProposal m = false ->
  Invitation m = Some inv ->
  Recipients m !! Z.to_nat (toDestIDx (IntroduceeIndex m)) = Some (Some a) ->
  heap w !! a = Some r ->
  let c := ReplyToNested (ThreadID m) (MapOfInvitation (Some inv))
             (MyDID r) (TheirDID r) in
  let e := messenger (calls w).*1 c in
  ExecuteInbound delivering messenger m w =
    (Returned match e with
              | None => (Some confirming, None)
              | Some x => (None, Errorf "send inbound invitation: " x)
              end,
     {| heap := heap w; calls := calls w ++ [(c, e)] |}).
Proof.
  intros Hsig Hskip Hinv Hrec Hr c e.
  cbn [ExecuteInbound]. unfold delivering_ExecuteInbound.
  destruct (no_disapproval_guard _ Hsig) as (approve & ok & -> & ->).
  rewrite Hskip, Hinv.
  assert (0 <= toDestIDx (IntroduceeIndex m))%Z as Hpos
    by (unfold toDestIDx; destruct (_ =? _)%Z; lia).
  rewrite (bind_Returned _ _ _ _ _ (index_Some _ _ _ w Hpos Hrec)).
  rewrite (bind_Returned _ _ _ _ _ (deref_Some _ _ _ Hr)).
  rewrite (bind_Returned (call messenger c) _ w
             {| heap := heap w; calls := calls w ++ [(c, e)] |} e eq_refl).
  destruct e; reflexivity.
Qed.

(** X10.  Without disapproval and with the skip-proposal test true,
    [delivering.ExecuteInbound] sends the invitation of the injected
    dependency (not the context's own [Invitation]) in the thread to
    recipient 0, in exactly one messenger call; it returns [done] when the
    messenger accepts and a nil followup with the wrapped error when it does
    not.  With no dependency injected it panics before any call. *)
Theorem delivering_skip_sends_dependency_invitation
    (messenger : service_Messenger) (m : metaData) (w : World) :
  (getApproveFromMsg (Msg m)).2 = false \/ (getApproveFromMsg (Msg m)).1 = true ->
  isSkipProposal m = true ->
  (dependency m = None ->
     ExecuteInbound delivering messenger m w = (Panicked, w))
  /\ (forall d a rest r,
        dependency m = Some d ->
        Recipients m = Some a :: rest ->
        heap w !! a = Some r ->
        let c := ReplyToNested (ThreadID m) (MapOfInvitation (Dependency_Invitation d))
                   (MyDID r) (TheirDID r) in
        let e := messenger (calls w).*1 c in
        ExecuteInbound delivering messenger m w =
          (Returned match e with
                    | None => (Some done, None)
                    | Some x => (None, Errorf "send inbound invitation (skip): " x)
                    end,
           {| heap := heap w; calls := calls w ++ [(c, e)] |})).
Proof.
  intros Hsig Hskip.
  cbn [ExecuteInbound]. unfold delivering_ExecuteInbound.
  destruct (no_disapproval_guard _ Hsig) as (approve & ok & -> & ->).
  rewrite Hskip. unfold deliveringSkipInvitation. split.
  - intros ->. reflexivity.
  - intros d a rest r -> -> Hr.
    rewrite (bind_Returned (ret d) _ w w d eq_refl).
    rewrite (bind_Returned (index (Some a :: rest) 0) _ w w (Some a) eq_refl).
    rewrite (bind_Returned _ _ _ _ _ (deref_Some _ _ _ Hr)).
    unfold bind, call. destruct (messenger _ _); reflexivity.
Qed.

(** X11.  [confirming.ExecuteInbound] sends one Ack of the thread to the
    recipient at [IntroduceeIndex] and returns [done] when the messenger
    accepts (a nil followup with the wrapped error when it does not).  An
    index that is negative or not below the number of recipients makes it
    panic before any call. *)
Theorem confirming_acknowledges
    (messenger : service_Messenger) (m : metaData) (w : World) :
  ((IntroduceeIndex m < 0 \/ Z.of_nat (length (Recipients m)) <= IntroduceeIndex m)%Z ->
     ExecuteInbound confirming messenger m w = (Panicked, w))
  /\ (forall a r,
        (0 <= IntroduceeIndex m)%Z ->
        Recipients m !! Z.to_nat (IntroduceeIndex m) = Some (Some a) ->
        heap w !! a = Some r ->
        let c := Send (MapOfAck {| Ack_Type := AckMsgType;
                                   Ack_Thread := Some {| Thread_ID := ThreadID m |} |})
                      (MyDID r) (TheirDID r) in
        let e := messenger (calls w).*1 c in
        ExecuteInbound confirming messenger m w =
          (Returned match e with
                    | None => (Some done, None)
                    | Some x => (None, Errorf "send ack: " x)
                    end,
           {| heap := heap w; calls := calls w ++ [(c, e)] |})).
Proof.
  cbn [ExecuteInbound]. unfold confirming_ExecuteInbound. split.
  - intros Hrange. apply bind_Panicked. apply index_out_of_range. exact Hrange.
  - intros a r Hpos Hrec Hr.
    rewrite (bind_Returned _ _ _ _ _ (index_Some _ _ _ w Hpos Hrec)).
    rewrite (bind_Returned _ _ _ _ _ (deref_Some _ _ _ Hr)).
    unfold bind, call. destruct (messenger _ _); reflexivity.
Qed.

(** X12.  [deciding.ExecuteInbound] never panics and makes exactly one
    messenger call, a reply to the triggering message.  The reply is a
    Response that approves exactly when the followup is [waiting] and
    disapproves exactly when the followup is [abandoning]; the followup is
    returned together with the messenger's answer, error or not. *)
Theorem deciding_reply_matches_followup
    (messenger : service_Messenger) (m : metaData) (w : World) :
  exists (resp : Response) (f : state) (e : error),
    ExecuteInbound deciding messenger m w =
      (Returned (Some f, e),
       {| heap := heap w;
          calls := calls w ++ [(ReplyTo (Msg_ID (Msg m)) (MapOfResponse resp), e)] |})
    /\ e = messenger (calls w).*1 (ReplyTo (Msg_ID (Msg m)) (MapOfResponse resp))
    /\ Response_Type resp = ResponseMsgType
    /\ (Approve resp = true <-> f = waiting)
    /\ (Approve resp = false <-> f = abandoning)
    /\ (Approve resp = false <-> disapprove m = true)
    /\ (forall d, dependency m = Some d ->
                  Response_Invitation resp = Dependency_Invitation d)
    /\ (dependency m = None -> Response_Invitation resp = None).
Proof.
  cbn [ExecuteInbound]. unfold deciding_ExecuteInbound.
  eexists _, _, _. split; [reflexivity|]. cbn [Response_Type Approve Response_Invitation].
  split_and!; try reflexivity.
  - destruct (disapprove m); cbn; split; congruence.
  - destruct (disapprove m); cbn; split; congruence.
  - destruct (disapprove m); cbn; split; congruence.
  - intros d ->. reflexivity.
  - intros ->. reflexivity.
Qed.

(** X13.  The two outbound executions send the triggering message itself,
    unchanged, from the context's [myDID] to its [theirDID], in exactly one
    messenger call; when the message is not a [service.DIDCommMsgMap] they
    panic before any call.  On a failed send [arranging] returns a nil
    followup and the wrapped error, [requesting] returns [noOp] and the
    messenger's own error. *)
Theorem outbound_sends_the_message
    (messenger : service_Messenger) (m : metaData) (w : World) :
  (Msg_AsMap (Msg m) = None ->
     ExecuteOutbound arranging messenger m w = (Panicked, w)
     /\ ExecuteOutbound requesting messenger m w = (Panicked, w))
  /\ (forall v, Msg_AsMap (Msg m) = Some v ->
        let c := Send v (myDID m) (theirDID m) in
        let e := messenger (calls w).*1 c in
        let w' := {| heap := heap w; calls := calls w ++ [(c, e)] |} in
        ExecuteOutbound arranging messenger m w =
          (Returned match e with
                    | None => (Some noOp, None)
                    | Some x => (None, Errorf "arranging: Send: " x)
                    end, w')
        /\ ExecuteOutbound requesting messenger m w = (Returned (Some noOp, e), w')).
Proof.
  cbn [ExecuteOutbound].
  unfold arranging_ExecuteOutbound, requesting_ExecuteOutbound, bind,
    assert_DIDCommMsgMap.
  split.
  - intros ->. split; reflexivity.
  - intros v ->. unfold call. cbn. destruct (messenger _ _); split; reflexivity.
Qed.

(** ** Recipients and problem reports, continued *)

Lemma sendProblemReport_all_accepted
    (messenger : service_Messenger) (m : metaData)
    (recipients : list ptr) (rs : list Recipient) (w : World) :
  (forall history c, messenger history c = None) ->
  Forall2 (fun p r => exists a, p = Some a /\ heap w !! a = Some r) recipients rs ->
  sendProblemReport messenger m recipients w =
    (Returned (Some done, None),
     {| heap := heap w;
        calls := calls w ++
          map (fun r =>
                 (ReplyToNested (ThreadID m)
                    (MapOfProblemReport {| ProblemReport_Type := ProblemReportMsgType |})
                    (MyDID r) (TheirDID r), None)) rs |}).
Proof.
  intros Hok Hrs. revert rs w Hrs.
  induction recipients as [|p rest IH]; intros rs w Hrs.
  - apply Forall2_nil_inv_l in Hrs as ->. cbn. rewrite app_nil_r.
    destruct w; reflexivity.
  - apply Forall2_cons_inv_l in Hrs as (r & rs' & (a & -> & Hr) & Hrest & ->).
    rewrite (sendProblemReport_cons _ _ _ _ _ _ Hr), Hok.
    etransitivity; [apply (IH rs'); exact Hrest|]. cbn [heap calls map].
    rewrite <- (assoc_L (++)). reflexivity.
Qed.

(** X14.  When every pointer of the list refers to a recipient and the
    messenger accepts every call, [sendProblemReport] returns [done] with no
    error after exactly one problem-report of the thread per recipient, in
    the order of the list, each addressed with that recipient's own DIDs; it
    does not change any recipient.  On the empty list it returns [done]
    without calling the messenger. *)
Theorem sendProblemReport_reports_to_all
    (messenger : service_Messenger) (m : metaData)
    (recipients : list ptr) (rs : list Recipient) (w : World) :
  (forall history c, messenger history c = None) ->
  Forall2 (fun p r => exists a, p = Some a /\ heap w !! a = Some r) recipients rs ->
  sendProblemReport messenger m recipients w =
    (Returned (Some done, None),
     {| heap := heap w;
        calls := calls w ++
          map (fun r =>
                 (ReplyToNested (ThreadID m)
                    (MapOfProblemReport {| ProblemReport_Type := ProblemReportMsgType |})
                    (MyDID r) (TheirDID r), None)) rs |}).
Proof. apply sendProblemReport_all_accepted. Qed.

Lemma fillRecipient_bad_pointer (m : metaData) (w : World) (p : ptr) (rest : list ptr) :
  deref p w = (Panicked, w) -> fillRecipient (p :: rest) m w = (Panicked, w).
Proof.
  intros Hp. unfold fillRecipient. cbn [length Nat.eqb].
  rewrite (bind_Returned (index (p :: rest) 0) _ w w p eq_refl).
  apply bind_Panicked. exact Hp.
Qed.

(** X15.  [fillRecipient] never returns an empty list.  When it returns, a
    non-empty argument comes back as the same list of pointers, no messenger
    call has been made and no recipient has disappeared.  It panics only on a
    non-empty list whose first pointer refers to no recipient, and then it
    has changed nothing. *)
Theorem fillRecipient_result_shape (recipients : list ptr) (m : metaData) (w : World) :
  match fillRecipient recipients m w with
  | (Returned rs', w') =>
      rs' <> []
      /\ (recipients <> [] -> rs' = recipients)
      /\ calls w' = calls w
      /\ length (heap w) <= length (heap w')
  | (Panicked, w') =>
      w' = w
      /\ exists p rest, recipients = p :: rest /\ deref p w = (Panicked, w)
  end.
Proof.
  destruct recipients as [|p rest].
  - rewrite fillRecipient_nil. cbn [heap calls].
    split_and!; [discriminate | congruence | reflexivity |].
    rewrite length_app. lia.
  - destruct (deref_cases p w) as [(a & r & -> & Hr) | Hp].
    + rewrite (fillRecipient_cons _ _ _ _ _ Hr). cbn [heap calls].
      split_and!; [discriminate | reflexivity | reflexivity |].
      rewrite length_insert. lia.
    + rewrite (fillRecipient_bad_pointer _ _ _ _ Hp). split; [reflexivity|].
      exists p, rest. split; [reflexivity | exact Hp].
Qed.

(** X16.  [fillRecipient] is idempotent: applied again to the list it
    returned, in the world it left, it returns the same list and changes
    nothing. *)
Theorem fillRecipient_idempotent
    (recipients rs' : list ptr) (m : metaData) (w w' : World) :
  fillRecipient recipients m w = (Returned rs', w') ->
  fillRecipient rs' m w' = (Returned rs', w').
Proof.
  assert (forall a rest r (v : World),
            heap v !! a = Some r ->
            (MyDID r = myDID m \/ MyDID r <> "") ->
            (TheirDID r = theirDID m \/ TheirDID r <> "") ->
            fillRecipient (Some a :: rest) m v = (Returned (Some a :: rest), v))
    as Hfixed.
  { intros a rest r v Hr Hmy Hth. rewrite (fillRecipient_cons _ _ _ _ _ Hr).
    assert ((if String.eqb (MyDID r) "" then myDID m else MyDID r) = MyDID r) as ->.
    { destruct (String.eqb_spec (MyDID r) "") as [Hemp | Hne]; [|reflexivity].
      destruct Hmy as [Hmy | Hmy]; congruence. }
    assert ((if String.eqb (TheirDID r) "" then theirDID m else TheirDID r)
            = TheirDID r) as ->.
    { destruct (String.eqb_spec (TheirDID r) "") as [Hemp | Hne]; [|reflexivity].
      destruct Hth as [Hth | Hth]; congruence. }
    rewrite list_insert_id by (rewrite Hr; destruct r; reflexivity).
    destruct v; reflexivity. }
  destruct recipients as [|p rest].
  - rewrite fillRecipient_nil. intros [= <- <-].
    eapply Hfixed.
    + cbn [heap]. rewrite lookup_app_r by lia. rewrite Nat.sub_diag. reflexivity.
    + left. reflexivity.
    + left. reflexivity.
  - destruct (deref_cases p w) as [(a & old & -> & Hold) | Hp].
    + rewrite (fillRecipient_cons _ _ _ _ _ Hold). intros [= <- <-].
      eapply Hfixed.
      * cbn [heap]. apply list_lookup_insert_eq. exact (lookup_lt_Some _ _ _ Hold).
      * cbn [MyDID]. destruct (String.eqb_spec (MyDID old) "");
          [left; reflexivity | right; assumption].
      * cbn [TheirDID]. destruct (String.eqb_spec (TheirDID old) "");
          [left; reflexivity | right; assumption].
    + rewrite (fillRecipient_bad_pointer _ _ _ _ Hp). discriminate.
Qed.

(** ** abandoning, continued *)

(** X17.  On a message of type [RequestMsgType] (a type different from
    [ResponseMsgType]) [abandoning.ExecuteInbound] ignores the recipients of
    the context: it makes one new recipient from the context's [myDID] and
    [theirDID], sends it the one problem-report of the thread, and returns
    [done] when the messenger accepts (a nil followup with the wrapped error
    when it does not).  The recipients that existed are not changed. *)
Theorem abandoning_request_reports_to_requester
    (messenger : service_Messenger) (m : metaData) (w : World) :
  Msg_Type (Msg m) = RequestMsgType ->
  RequestMsgType <> ResponseMsgType ->
  let c := ReplyToNested (ThreadID m)
             (MapOfProblemReport {| ProblemReport_Type := ProblemReportMsgType |})
             (myDID m) (theirDID m) in
  let e := messenger (calls w).*1 c in
  ExecuteInbound abandoning messenger m w =
    (Returned match e with
              | None => (Some done, None)
              | Some x => (None, Errorf "send problem-report: " x)
              end,
     {| heap := heap w ++ [{| To := None; MyDID := myDID m; TheirDID := theirDID m |}];
        calls := calls w ++ [(c, e)] |}).
Proof.
  intros Hty Hne c e.
  cbn [ExecuteInbound]. unfold abandoning_ExecuteInbound.
  assert (String.eqb (Msg_Type (Msg m)) ResponseMsgType = false) as Hresp
    by (apply String.eqb_neq; congruence).
  rewrite getApproveFromMsg_absent by (left; congruence).
  rewrite Hresp, Hty, String.eqb_refl. cbn [andb].
  rewrite (bind_Returned _ _ _ _ _ (fillRecipient_nil m w)).
  rewrite (bind_Returned (ret [Some (length (heap w))]) _ _ _ _ eq_refl).
  erewrite sendProblemReport_one
    by (cbn [heap]; rewrite lookup_app_r by lia; rewrite Nat.sub_diag; reflexivity).
  reflexivity.
Qed.

(** X18.  On a message that is neither a Request nor a Response
    [abandoning.ExecuteInbound] has no recipients: it returns [done] with no
    error, calls the messenger not at all and changes nothing. *)
Theorem abandoning_other_message_is_silent
    (messenger : service_Messenger) (m : metaData) (w : World) :
  Msg_Type (Msg m) <> RequestMsgType ->
  Msg_Type (Msg m) <> ResponseMsgType ->
  ExecuteInbound abandoning messenger m w = (Returned (Some done, None), w).
Proof.
  intros Hreq Hresp.
  cbn [ExecuteInbound]. unfold abandoning_ExecuteInbound.
  rewrite getApproveFromMsg_absent by (left; exact Hresp).
  apply String.eqb_neq in Hreq, Hresp. rewrite Hreq, Hresp. reflexivity.
Qed.

(** X19.  On a Response, [abandoning.ExecuteInbound] fills the empty DID
    fields of the context's first recipient in place: whatever the approve
    signal, the wait count and the messenger's answers, and also when nothing
    is sent or a later step fails, the recipient that [Recipients[0]] points
    to ends with [myDID] and [theirDID] in the fields that were empty and its
    other fields as before. *)
Theorem abandoning_response_backfills_shared_recipient
    (messenger : service_Messenger) (m : metaData) (w : World)
    (a : nat) (rest : list ptr) (old : Recipient) :
  Msg_Type (Msg m) = ResponseMsgType ->
  Recipients m = Some a :: rest ->
  heap w !! a = Some old ->
  heap (ExecuteInbound abandoning messenger m w).2 !! a =
    Some {| To := To old;
            MyDID := if String.eqb (MyDID old) "" then myDID m else MyDID old;
            TheirDID := if String.eqb (TheirDID old) "" then theirDID m
                        else TheirDID old |}.
Proof.
  intros Hty Hrec Hold.
  cbn [ExecuteInbound]. unfold abandoning_ExecuteInbound.
  destruct (abandoning_request_step m w) as (rs0 & w0 & Hstep & _ & Hheap0).
  rewrite (bind_Returned _ _ _ _ _ Hstep).
  rewrite Hty, String.eqb_refl, Hrec.
  pose proof (Hheap0 _ _ Hold) as Hold0.
  rewrite (bind_Returned _ _ _ _ _ (fillRecipient_cons _ _ _ rest _ Hold0)).
  set (w1 := {| heap := _; calls := calls w0 |}).
  assert (heap w1 !! a = Some {| To := To old;
            MyDID := if String.eqb (MyDID old) "" then myDID m else MyDID old;
            TheirDID := if String.eqb (TheirDID old) "" then theirDID m
                        else TheirDID old |}) as Hfilled.
  { subst w1. cbn [heap]. apply list_lookup_insert_eq.
    exact (lookup_lt_Some _ _ _ Hold0). }
  assert (forall L, heap (sendProblemReport messenger m L w1).2 = heap w1) as Hsend.
  { intros L. destruct (sendProblemReport_trace messenger m L w1) as (new & _ & Hh & _).
    exact Hh. }
  destruct (getApproveFromMsg (Msg m)) as [approve ok].
  destruct (ok && negb approve); [|rewrite Hsend; exact Hfilled].
  destruct (WaitCount m =? 1)%Z; [exact Hfilled|].
  rewrite (bind_Returned (slice_to (Some a :: rest) 1) _ w1 w1 [Some a] eq_refl).
  rewrite Hsend. exact Hfilled.
Qed.

(** X22.  On a Response with no disapproval, [abandoning.ExecuteInbound]
    reports the problem to every recipient of the context: when the first
    pointer and the others refer to recipients (the others at addresses
    different from the first) and the messenger accepts every call, it
    returns [done] with no error after one problem-report per recipient, in
    order, the first addressed with its back-filled DIDs. *)
Theorem abandoning_response_reports_to_all
    (messenger : service_Messenger) (m : metaData) (w : World)
    (a : nat) (rest : list ptr) (old : Recipient) (rs : list Recipient) :
  Msg_Type (Msg m) = ResponseMsgType ->
  (getApproveFromMsg (Msg m)).2 = false \/ (getApproveFromMsg (Msg m)).1 = true ->
  (forall history c, messenger history c = None) ->
  Recipients m = Some a :: rest ->
  heap w !! a = Some old ->
  Forall2 (fun p r => exists b, p = Some b /\ b <> a /\ heap w !! b = Some r) rest rs ->
  let first :=
    {| To := To old;
       MyDID := if String.eqb (MyDID old) "" then myDID m else MyDID old;
       TheirDID := if String.eqb (TheirDID old) "" then theirDID m else TheirDID old |} in
  let res := ExecuteInbound abandoning messenger m w in
  res.1 = Returned (Some done, None)
  /\ calls res.2 =
       calls w ++
       map (fun r =>
              (ReplyToNested (ThreadID m)
                 (MapOfProblemReport {| ProblemReport_Type := ProblemReportMsgType |})
                 (MyDID r) (TheirDID r), None)) (first :: rs).
Proof.
  intros Hty Hsig Hok Hrec Hold Hrest first res. subst res.
  cbn [ExecuteInbound]. unfold abandoning_ExecuteInbound.
  destruct (abandoning_request_step m w) as (rs0 & w0 & Hstep & Hcalls0 & Hheap0).
  rewrite (bind_Returned _ _ _ _ _ Hstep).
  rewrite Hty, String.eqb_refl, Hrec.
  pose proof (Hheap0 _ _ Hold) as Hold0.
  rewrite (bind_Returned _ _ _ _ _ (fillRecipient_cons _ _ _ rest _ Hold0)).
  fold first.
  destruct (no_disapproval_guard _ Hsig) as (approve & ok & -> & ->).
  erewrite (sendProblemReport_all_accepted _ _ _ (first :: rs)); [| exact Hok |].
  - cbn [fst snd calls]. rewrite Hcalls0. split; reflexivity.
  - cbn [heap]. constructor.
    + exists a. split; [reflexivity|].
      apply list_lookup_insert_eq. exact (lookup_lt_Some _ _ _ Hold0).
    + eapply Forall2_impl; [exact Hrest|].
      intros p r (b & -> & Hne & Hb). exists b. split; [reflexivity|].
      rewrite list_lookup_insert_ne by congruence. apply Hheap0. exact Hb.
Qed.

(** X23.  [getApproveFromMsg] reports an approve signal exactly when the
    message has type [ResponseMsgType] and its payload decodes as a Response;
    the value it reports is then the decoded [Approve] field, and without a
    signal the value is false. *)
Theorem getApproveFromMsg_signal (msg : service_DIDCommMsg) :
  ((getApproveFromMsg msg).2 = true <->
     Msg_Type msg = ResponseMsgType /\ is_Some (Msg_Decode msg))
  /\ (forall r, Msg_Type msg = ResponseMsgType -> Msg_Decode msg = Some r ->
                getApproveFromMsg msg = (Approve r, true))
  /\ ((getApproveFromMsg msg).2 = false -> (getApproveFromMsg msg).1 = false).
Proof.
  rewrite getApproveFromMsg_cases.
  destruct (Msg_Decode msg) as [r|];
    destruct (String.eqb_spec (Msg_Type msg) ResponseMsgType) as [Hty | Hty];
    cbn [fst snd]; split_and!;
    try (split; [discriminate | intros [? [? ?]]; congruence]);
    try (intros; congruence); try reflexivity.
  all: try (split; [intros _; split; [exact Hty | eexists; reflexivity] | reflexivity]).
  all: try (intros r0 _ [= ->]; reflexivity).
Qed.

End IntroduceStates.

(** * The properties on concrete inputs *)

Section StoreEvaluations.
Import Didexchange StoreFixtures.

(** A completed record saved in an accepting store: the record save, then
    the resolution of the peer DID with the record's keys. *)
Lemma saveConnectionRecord_contract_witness :
  saveConnectionRecord accepting completed_record [] =
    (None, [(SaveConnectionRecord completed_record, None);
            (SaveDIDByResolving "did:peer:bob" ["key-1"], None)])
  /\ exists r rest,
       (saveConnectionRecord accepting completed_record []).2
         = [] ++ (SaveConnectionRecord completed_record, r) :: rest.
Proof.
  split; [reflexivity|].
  destruct (saveConnectionRecord_contract accepting completed_record [])
    as (r & rest & Htrace & _).
  exists r, rest. exact Htrace.
Defined.

(** When the record save fails, its error comes back wrapped and the peer
    DID is not resolved. *)
Example saveConnectionRecord_save_fails :
  saveConnectionRecord record_save_fails completed_record [] =
    (Some " failed to save connection record : store closed",
     [(SaveConnectionRecord completed_record, Some "store closed")]).
Proof. reflexivity. Qed.

(** The same record saved with its mappings: the only resolution is the
    one of [MyDID], without keys. *)
Lemma saveConnectionRecordWithMapping_witness :
  saveConnectionRecordWithMapping accepting completed_record [] =
    (None, [(SaveConnectionRecordWithMappings completed_record, None);
            (SaveDIDByResolving "did:peer:alice" [], None)])
  /\ exists r rest,
       (saveConnectionRecordWithMapping accepting completed_record []).2
         = [] ++ (SaveConnectionRecordWithMappings completed_record, r) :: rest
       /\ SaveDIDByResolving "did:peer:bob" ["key-1"] ∉ rest.*1.
Proof.
  split; [reflexivity|].
  destruct (saveConnectionRecordWithMapping_resolves_MyDID_only
              accepting completed_record [])
    as (r & rest & Htrace & _ & _ & _ & _ & Hkeys).
  exists r, rest. split; [exact Htrace|]. apply Hkeys. discriminate.
Defined.

Lemma save_with_mapping_then_save_witness :
  resolutions
    (saveConnectionRecord accepting completed_record
       (saveConnectionRecordWithMapping accepting completed_record []).2).2.*1
  = [("did:peer:alice", []); ("did:peer:bob", ["key-1"])].
Proof.
  exact (proj2 (save_with_mapping_then_save accepting completed_record []
                  eq_refl eq_refl)).
Defined.

End StoreEvaluations.

Section StateEvaluations.
Import Introduce Fixtures.



Lemma abandoning_disapproval_witness :
  exists my their : string,
    calls (ExecuteInbound abandoning reliable (context (response false) 2)
             two_recipients).2
      = [] ++ [(problem_report my their, None)]
    /\ my = "did:peer:introducer-a" /\ their = "did:peer:alice".
Proof.
  destruct (abandoning_disapproval reliable (context (response false) 2)
              two_recipients
              {| Response_Type := ResponseMsgType;
                 Response_Invitation := None; Approve := false |}
              eq_refl eq_refl eq_refl
              (or_intror (ex_intro _ 0 (ex_intro _ [Some 1]
                 (ex_intro _ alice (conj eq_refl eq_refl))))))
    as [_ Hsecond].
  destruct (Hsecond ltac:(discriminate)) as (my & their & _ & Hfirst & Hc & _).
  exists my, their. split; [exact Hc|].
  exact (Hfirst 0 [Some 1] alice eq_refl eq_refl).
Defined.

Lemma arranging_skip_proposal_witness :
  Msg_Type (Msg skip_context) = ResponseMsgType
  /\ isSkipProposal skip_context = true
  /\ ExecuteInbound arranging reliable skip_context two_recipients
       = (Returned (Some delivering, None), two_recipients).
Proof.
  split_and!; [reflexivity | reflexivity |].
  apply arranging_skip_proposal; reflexivity.
Defined.

Lemma no_approve_signal_witness :
  getApproveFromMsg malformed_response = (false, false)
  /\ forall e, (ExecuteInbound arranging reliable (context malformed_response 1)
                  two_recipients).1 <> Returned (Some abandoning, e).
Proof.
  destruct (no_approve_signal_is_not_disapproval reliable
              (context malformed_response 1) two_recipients
              (or_intror eq_refl))
    as (Hget & Harr & _).
  split; [exact Hget | exact Harr].
Defined.

Lemma fillRecipient_witness :
  exists (w' : World) (r : Recipient),
    fillRecipient [Some 0; Some 1] (context (response true) 2) first_unknown
      = (Returned [Some 0; Some 1], w')
    /\ heap w' !! 0 = Some r
    /\ MyDID r = "did:peer:introducer"
    /\ TheirDID r = "did:peer:carol"
    /\ heap w' !! 1 = Some bob.
Proof.
  destruct (fillRecipient_backfills_first_only (context (response true) 2) first_unknown)
    as [_ Hcons].
  destruct (Hcons 0 [Some 1] unknown eq_refl)
    as (w' & r & Hres & Hr & _ & Hmy & _ & Hth & _ & Hother & _).
  exists w', r. split_and!; [exact Hres | exact Hr | | |].
  - exact (Hmy eq_refl).
  - exact (Hth eq_refl).
  - rewrite (Hother 1) by discriminate. reflexivity.
Defined.

Lemma delivering_no_invitation_witness :
  ExecuteInbound delivering reliable (context (response true) 1) two_recipients
    = (Returned (Some abandoning, None), two_recipients).
Proof.
  apply delivering_no_invitation; [right | |]; reflexivity.
Defined.

Lemma unsupported_execution_fails_witness :
  exists text : string,
    Execute true start reliable (context (response true) 2) two_recipients
      = (Returned (None, Some text), two_recipients).
Proof.
  apply unsupported_execution_fails. right. left.
Defined.

Lemma only_abandoning_changes_recipients_witness :
  heap (Execute true deciding fails_after_one (context (response true) 2)
          two_recipients).2 = [alice; bob].
Proof.
  apply (only_abandoning_changes_recipients true deciding). discriminate.
Defined.

Lemma followup_is_legal_witness :
  abandoning = noOp \/ CanTransitionTo delivering abandoning = true.
Proof.
  exact (followup_is_legal true delivering reliable (context (response true) 1)
           two_recipients abandoning None eq_refl).
Defined.

Lemma arranging_sends_proposal_witness :
  ExecuteInbound arranging reliable (context (response true) 2) two_recipients =
    (Returned (Some noOp, None),
     {| heap := [alice; bob];
        calls := [(Send (MapOfProposal
                           {| Proposal_Type := ProposalMsgType;
                              Proposal_To := None;
                              Proposal_Thread := Some {| Thread_ID := "thread-1" |} |})
                        "did:peer:introducer-a" "did:peer:alice", None)] |}).
Proof.
  exact (arranging_sends_proposal reliable (context (response true) 2)
           two_recipients 0 alice eq_refl (or_intror eq_refl) eq_refl eq_refl).
Defined.

Lemma disapproval_routing_witness :
  ExecuteInbound delivering reliable (context (response false) 2) two_recipients
    = (Returned (Some abandoning, None), two_recipients)
  /\ ExecuteInbound arranging reliable (context (response false) 2) two_recipients
    = (Returned (Some abandoning, None), two_recipients).
Proof.
  exact (disapproval_routing reliable (context (response false) 2) two_recipients
           {| Response_Type := ResponseMsgType;
              Response_Invitation := None; Approve := false |}
           eq_refl eq_refl eq_refl).
Defined.

Lemma delivering_relays_invitation_witness :
  ExecuteInbound delivering reliable invited_context two_recipients =
    (Returned (Some confirming, None),
     {| heap := [alice; bob];
        calls := [(ReplyToNested "thread-1"
                     (MapOfInvitation
                        (Some {| Inv_ID := "invitation-2"; Inv_Label := "alice" |}))
                     "did:peer:introducer-b" "did:peer:bob", None)] |}).
Proof.
  exact (delivering_relays_invitation reliable invited_context two_recipients
           {| Inv_ID := "invitation-2"; Inv_Label := "alice" |} 1 bob
           (or_intror eq_refl) eq_refl eq_refl eq_refl eq_refl).
Defined.

Lemma delivering_skip_witness :
  ExecuteInbound delivering reliable skip_context two_recipients =
    (Returned (Some done, None),
     {| heap := [alice; bob];
        calls := [(ReplyToNested "thread-1"
                     (MapOfInvitation
                        (Some {| Inv_ID := "invitation-1"; Inv_Label := "bob" |}))
                     "did:peer:introducer-a" "did:peer:alice", None)] |}).
Proof.
  exact (proj2 (delivering_skip_sends_dependency_invitation reliable skip_context
                  two_recipients (or_intror eq_refl) eq_refl)
           _ 0 [] alice eq_refl eq_refl eq_refl).
Defined.

Lemma sendProblemReport_reports_to_all_witness :
  sendProblemReport reliable (context (response true) 2) [Some 0; Some 1] two_recipients =
    (Returned (Some done, None),
     {| heap := [alice; bob];
        calls := [(problem_report "did:peer:introducer-a" "did:peer:alice", None);
                  (problem_report "did:peer:introducer-b" "did:peer:bob", None)] |}).
Proof.
  apply (sendProblemReport_reports_to_all reliable (context (response true) 2)
           [Some 0; Some 1] [alice; bob] two_recipients).
  - reflexivity.
  - repeat constructor; eexists; split; reflexivity.
Defined.

Lemma fillRecipient_idempotent_witness :
  let m := context request 2 in
  let w' := {| heap := [alice; bob;
                        {| To := None; MyDID := "did:peer:introducer";
                           TheirDID := "did:peer:carol" |}];
               calls := [] |} in
  fillRecipient [Some 2] m w' = (Returned [Some 2], w').
Proof.
  exact (fillRecipient_idempotent [] [Some 2] (context request 2) two_recipients _
           eq_refl).
Defined.

Lemma abandoning_request_witness :
  ExecuteInbound abandoning reliable (context request 2) two_recipients =
    (Returned (Some done, None),
     {| heap := [alice; bob;
                 {| To := None; MyDID := "did:peer:introducer";
                    TheirDID := "did:peer:carol" |}];
        calls := [(problem_report "did:peer:introducer" "did:peer:carol", None)] |}).
Proof.
  apply (abandoning_request_reports_to_requester reliable (context request 2)
           two_recipients); [reflexivity | discriminate].
Defined.

Lemma abandoning_other_message_witness :
  ExecuteInbound abandoning reliable (context ack 2) two_recipients
    = (Returned (Some done, None), two_recipients).
Proof.
  apply abandoning_other_message_is_silent; discriminate.
Defined.

Lemma abandoning_backfills_witness :
  heap (ExecuteInbound abandoning fails_after_one (context (response false) 1)
          first_unknown).2 !! 0
    = Some {| To := None; MyDID := "did:peer:introducer"; TheirDID := "did:peer:carol" |}.
Proof.
  exact (abandoning_response_backfills_shared_recipient fails_after_one
           (context (response false) 1) first_unknown 0 [Some 1] unknown
           eq_refl eq_refl eq_refl).
Defined.

Lemma abandoning_response_reports_to_all_witness :
  calls (ExecuteInbound abandoning reliable (context (response true) 2)
           two_recipients).2
    = [(problem_report "did:peer:introducer-a" "did:peer:alice", None);
       (problem_report "did:peer:introducer-b" "did:peer:bob", None)].
Proof.
  refine (proj2 (abandoning_response_reports_to_all reliable
                   (context (response true) 2) two_recipients 0 [Some 1] alice [bob]
                   eq_refl (or_intror eq_refl) (fun _ _ => eq_refl) eq_refl eq_refl _)).
  repeat constructor. exists 1. split_and!; [reflexivity | discriminate | reflexivity].
Defined.

End StateEvaluations.
